(** * The SBF codec of tools/cc.py

    A shallow embedding of the "SBF READ/WRITE" part of [tools/cc.py]
    (functions [is_int], [get_name_index_dict], [remove_sf], [add_sf],
    [rename_sf], [shift_array], [read_sbf_header], [read_sbf] and
    [write_sbf]) and the properties of the format that hold, or fail, on it.

    Library boundaries.  [configparser] turns the header text into a
    mapping of sections; the embedding starts from that mapping (an ordered
    dictionary with case-sensitive keys, since the code sets
    [optionxform = str]), with an empty DEFAULT section and values free of
    interpolation marks.  [numpy] arrays are matrices with an explicit
    shape; [struct] packs big-endian integers and IEEE-754 numbers. *)

From Stdlib Require Import String Ascii List ZArith NArith Lia Bool.
From Stdlib Require Import Strings.Byte DecimalString DecimalZ DecimalN SpecFloat.
Import ListNotations.
Local Open Scope string_scope.
Local Open Scope list_scope.

(** ** Python exceptions and results *)

Inductive exn : Type :=
| KeyError        (* dict or section lookup of a missing key *)
| ValueError      (* int() of a non-integer string, numpy shape mismatch *)
| IndexError      (* numpy index out of bounds *)
| StructError     (* struct.pack / struct.unpack *)
| AttributeError  (* attribute access on None *)
| EvalError.      (* whatever eval() or np.array() of its value raises *)

Inductive result (A : Type) : Type :=
| Ok (a : A)
| Raise (e : exn).
Arguments Ok {A} a.
Arguments Raise {A} e.

Definition bind {A B} (r : result A) (k : A -> result B) : result B :=
  match r with
  | Ok a => k a
  | Raise e => Raise e
  end.

Notation "x <- r ;; k" := (bind r (fun x => k))
  (at level 61, r at next level, right associativity).
Notation "' p <- r ;; k" := (bind r (fun p => k))
  (at level 61, p pattern, r at next level, right associativity).

Definition of_option {A} (e : exn) (o : option A) : result A :=
  match o with
  | Some a => Ok a
  | None => Raise e
  end.

(** ** Python strings: [str(int)], [int(str)], [str.split('SF')] *)

Module PyStr.

(** [str(n)] for an integer. *)
Definition str (z : Z) : string := NilZero.string_of_int (Z.to_int z).

(** The white space that [int] strips: the space, the characters 9 to 13
    and the separators 28 to 31. *)
Definition is_space (c : ascii) : bool :=
  match c with
  | " "%char | "009"%char | "010"%char | "011"%char | "012"%char | "013"%char
  | "028"%char | "029"%char | "030"%char | "031"%char => true
  | _ => false
  end.

Fixpoint lstrip (s : string) : string :=
  match s with
  | String c r => if is_space c then lstrip r else s
  | EmptyString => EmptyString
  end.

Fixpoint rstrip (s : string) : string :=
  match s with
  | String c r =>
      match rstrip r with
      | EmptyString => if is_space c then EmptyString else String c EmptyString
      | r' => String c r'
      end
  | EmptyString => EmptyString
  end.

Definition strip (s : string) : string := rstrip (lstrip s).

Definition is_digit (c : ascii) : bool :=
  match c with
  | "0"%char | "1"%char | "2"%char | "3"%char | "4"%char
  | "5"%char | "6"%char | "7"%char | "8"%char | "9"%char => true
  | _ => false
  end.

(** Underscores are accepted between two digits only; [after_digit] tells
    whether the previous character was a digit. *)
Fixpoint drop_underscores (after_digit : bool) (s : string) : option string :=
  match s with
  | EmptyString => Some EmptyString
  | String "_"%char r =>
      match r with
      | String c _ => if after_digit && is_digit c then drop_underscores false r else None
      | EmptyString => None
      end
  | String c r => option_map (String c) (drop_underscores (is_digit c) r)
  end.

Definition digits (s : string) : option Z :=
  match drop_underscores false s with
  | Some EmptyString => None
  | Some t => option_map Z.of_uint (NilEmpty.uint_of_string t)
  | None => None
  end.

(** [int(s)]: [None] stands for the ValueError. *)
Definition int (s : string) : option Z :=
  match strip s with
  | String "-"%char r => option_map Z.opp (digits r)
  | String "+"%char r => digits r
  | t => digits t
  end.

(** [s.split('SF')]; [cur] is the piece being read. *)
Fixpoint split_SF_aux (cur : string) (s : string) : list string :=
  match s with
  | String "S"%char (String "F"%char r) => cur :: split_SF_aux EmptyString r
  | String c r => split_SF_aux (String.append cur (String c EmptyString)) r
  | EmptyString => [cur]
  end.

Definition split_SF (s : string) : list string := split_SF_aux EmptyString s.

End PyStr.

(** [is_int(str_)] *)
Definition is_int (str_ : string) : bool :=
  match PyStr.int str_ with
  | Some _ => true
  | None => false
  end.

(** ** Ordered dictionaries (Python [dict], configparser sections) *)

Abbreviation odict V := (list (string * V)).

Section OrderedDict.
Context {V : Type}.

Fixpoint od_get (k : string) (d : odict V) : option V :=
  match d with
  | [] => None
  | (k', v) :: d' => if String.eqb k k' then Some v else od_get k d'
  end.

(** [d[k] = v]: an existing key keeps its position, a new one goes last. *)
Fixpoint od_set (k : string) (v : V) (d : odict V) : odict V :=
  match d with
  | [] => [(k, v)]
  | (k', v') :: d' =>
      if String.eqb k k' then (k', v) :: d' else (k', v') :: od_set k v d'
  end.

Fixpoint od_del (k : string) (d : odict V) : odict V :=
  match d with
  | [] => []
  | (k', v') :: d' =>
      if String.eqb k k' then od_del k d' else (k', v') :: od_del k d'
  end.

Definition od_mem (k : string) (d : odict V) : bool :=
  match od_get k d with
  | Some _ => true
  | None => false
  end.

Definition od_keys (d : odict V) : list string := map fst d.
End OrderedDict.

(** A section maps option names to values, a header maps section names to
    sections. *)
Abbreviation section := (odict string).
Abbreviation ConfigParser := (odict section).

(** [config['SBF']] *)
Definition sbf_section (cfg : ConfigParser) : result section :=
  of_option KeyError (od_get "SBF" cfg).

(** [config['SBF'][key]] *)
Definition sbf_get (key : string) (cfg : ConfigParser) : result string :=
  sec <- sbf_section cfg ;; of_option KeyError (od_get key sec).

(** [config['SBF'][key] = value] *)
Definition sbf_set (key value : string) (cfg : ConfigParser) : result ConfigParser :=
  sec <- sbf_section cfg ;; Ok (od_set "SBF" (od_set key value sec) cfg).

(** [config.remove_option('SBF', key)]: NoSectionError is a KeyError here. *)
Definition sbf_remove_option (key : string) (cfg : ConfigParser) : result ConfigParser :=
  sec <- sbf_section cfg ;; Ok (od_set "SBF" (od_del key sec) cfg).

(** [int(s)] as a statement. *)
Definition py_int (s : string) : result Z := of_option ValueError (PyStr.int s).

(** [f'SF{k}'] *)
Definition SF (k : Z) : string := String.append "SF" (PyStr.str k).

(** ** numpy arrays of two dimensions *)

Record matrix (A : Type) : Type := Matrix {
  nrows : nat;
  ncols : nat;
  mrows : list (list A)
}.
Arguments Matrix {A} nrows ncols mrows.
Arguments nrows {A} m.
Arguments ncols {A} m.
Arguments mrows {A} m.

(** The rows agree with the declared shape. *)
Definition wf_matrix {A} (m : matrix A) : Prop :=
  length (mrows m) = nrows m /\ Forall (fun r => length r = ncols m) (mrows m).

Definition remove_nth {A} (j : nat) (l : list A) : list A :=
  firstn j l ++ skipn (S j) l.

(** [np.delete(m, index, axis=1)]; a negative index counts from the end. *)
Definition np_delete_col {A} (m : matrix A) (index : Z) : result (matrix A) :=
  let c := Z.of_nat (ncols m) in
  if ((- c <=? index) && (index <? c))%Z then
    let j := Z.to_nat (if (index <? 0)%Z then index + c else index)%Z in
    Ok (Matrix (nrows m) (ncols m - 1) (map (remove_nth j) (mrows m)))
  else Raise IndexError.

(** [np.c_[m, col]] for a one-dimensional [col]. *)
Definition np_c_ {A} (m : matrix A) (col : list A) : result (matrix A) :=
  if Nat.eqb (length col) (nrows m) then
    Ok (Matrix (nrows m) (ncols m + 1)
          (map (fun rx => fst rx ++ [snd rx]) (combine (mrows m) col)))
  else Raise ValueError.

(** ** Functions that update the caller's header in place

    The header object is threaded as a state that survives an exception. *)

Definition St (A : Type) : Type := ConfigParser -> ConfigParser * result A.

Definition st_bind {A B} (m : St A) (k : A -> St B) : St B :=
  fun c => match m c with
           | (c', Ok a) => k a c'
           | (c', Raise e) => (c', Raise e)
           end.

Definition st_read {A} (f : ConfigParser -> result A) : St A := fun c => (c, f c).

Definition st_pure {A} (r : result A) : St A := fun c => (c, r).

Definition st_update (f : ConfigParser -> result ConfigParser) : St unit :=
  fun c => match f c with
           | Ok c' => (c', Ok tt)
           | Raise e => (c, Raise e)
           end.

Notation "x <~ m ;; k" := (st_bind m (fun x => k))
  (at level 61, m at next level, right associativity).

(** [range(a, b)] *)
Fixpoint py_range_from (n : nat) (a : Z) : list Z :=
  match n with
  | O => []
  | S n' => a :: py_range_from n' (a + 1)%Z
  end.

Definition py_range (a b : Z) : list Z := py_range_from (Z.to_nat (b - a)) a.

(** [for idx in idxs: body], the loop state being [s]. *)
Fixpoint for_each {S : Type} (idxs : list Z) (body : Z -> S -> result S) (s : S)
  : result S :=
  match idxs with
  | [] => Ok s
  | idx :: rest => s' <- body idx s ;; for_each rest body s'
  end.

(** ** The scalar-field bookkeeping *)

(** The index a key stands for: [int(name.split('SF')[1]) - 1] under the
    comprehension's filter. *)
Definition sf_key_index (name : string) : option Z :=
  match PyStr.split_SF name with
  | [_; t] => if is_int t then option_map (fun z => (z - 1)%Z) (PyStr.int t) else None
  | _ => None
  end.

(** The dictionary built by the comprehension: a later key replaces the
    index of an equal name. *)
Fixpoint name_index_of (sec : section) (acc : odict Z) : odict Z :=
  match sec with
  | [] => acc
  | (name, value) :: rest =>
      match sf_key_index name with
      | Some i => name_index_of rest (od_set value i acc)
      | None => name_index_of rest acc
      end
  end.

Definition get_name_index_dict (config : ConfigParser) : result (odict Z) :=
  sec <- sbf_section config ;; Ok (name_index_of sec []).

(** [get_name_index_dict(config)[name]] *)
Definition index_of (name : string) (config : ConfigParser) : result Z :=
  name_index <- get_name_index_dict config ;;
  of_option KeyError (od_get name name_index).

Definition remove_sf {A} (name : string) (sf : matrix A) (config : ConfigParser)
  : result (matrix A * ConfigParser) :=
  name_index <- get_name_index_dict config ;;
  index <- of_option KeyError (od_get name name_index) ;;
  new_sf <- np_delete_col sf index ;;
  let new_config := config in
  let sf_index := (index + 1)%Z in
  s <- sbf_get "SFCount" config ;;
  sf_count <- py_int s ;;
  new_config <- sbf_set "SFCount" (PyStr.str (sf_count - 1)) new_config ;;
  new_config <- sbf_remove_option (SF sf_count) new_config ;;
  new_config <- for_each (py_range 1 sf_index)
                  (fun idx nc => v <- sbf_get (SF idx) config ;; sbf_set (SF idx) v nc)
                  new_config ;;
  new_config <- for_each (py_range sf_index sf_count)
                  (fun idx nc => v <- sbf_get (SF (idx + 1)) config ;; sbf_set (SF idx) v nc)
                  new_config ;;
  Ok (new_sf, new_config).

Definition add_sf {A} (name : string) (sf : matrix A) (config : ConfigParser)
  (sf_to_add : list A) : ConfigParser * result (matrix A) :=
  (s <~ st_read (sbf_get "SFCount") ;;
   sf_count <~ st_pure (py_int s) ;;
   _ <~ st_update (sbf_set (SF (sf_count + 1)) name) ;;
   _ <~ st_update (sbf_set "SFCount" (PyStr.str (sf_count + 1))) ;;
   st_pure (np_c_ sf sf_to_add)) config.

Definition rename_sf (name new_name : string) (config : ConfigParser)
  : ConfigParser * result unit :=
  (name_index <~ st_read get_name_index_dict ;;
   index <~ st_pure (of_option KeyError (od_get name name_index)) ;;
   st_update (sbf_set (SF (index + 1)) new_name)) config.

(** ** Bytes and big-endian integers ([struct] with [>Q] and [>H]) *)

Definition byte_of_N (n : N) : byte :=
  match Byte.of_N (n mod 256) with
  | Some b => b
  | None => x00
  end.

(** The [k] low bytes of [n], most significant first. *)
Fixpoint be_encode (k : nat) (n : N) : list byte :=
  match k with
  | O => []
  | S k' => be_encode k' (n / 256) ++ [byte_of_N n]
  end.

Definition be_decode (l : list byte) : N :=
  fold_left (fun acc b => (acc * 256 + Byte.to_N b)%N) l 0%N.

(** [struct.pack('>Q', n)] and [struct.pack('>H', n)] *)
Definition pack_uint (k : nat) (n : N) : result (list byte) :=
  if (n <? 256 ^ N.of_nat k)%N then Ok (be_encode k n) else Raise StructError.

(** [struct.unpack('>Q', l)[0]] and [struct.unpack('>H', l)[0]] *)
Definition unpack_uint (k : nat) (l : list byte) : result N :=
  if Nat.eqb (length l) k then Ok (be_decode l) else Raise StructError.

(** [l[a:b]] for [0 <= a <= b] *)
Definition slice {A} (a b : nat) (l : list A) : list A := firstn (b - a) (skipn a l).

(** ** IEEE-754 numbers

    A number is its big-endian byte image, which is what the file holds;
    arithmetic decodes it, computes with [SpecFloat] (round to nearest,
    ties to even) and encodes the result.  Every NaN produced by an
    operation is the quiet NaN with an empty payload. *)

Inductive f32 : Type := F32 (b0 b1 b2 b3 : byte).
Inductive f64 : Type := F64 (b0 b1 b2 b3 b4 b5 b6 b7 : byte).

Module IEEE.

(** [prec] bits of precision, [ew] bits of exponent. *)
Definition SF_of_bits (prec ew : Z) (bits : Z) : spec_float :=
  let mw := (prec - 1)%Z in
  let m := (bits mod 2 ^ mw)%Z in
  let e := ((bits / 2 ^ mw) mod 2 ^ ew)%Z in
  let s := Z.odd (bits / 2 ^ (mw + ew)) in
  let emin := (3 - 2 ^ (ew - 1) - prec)%Z in
  if (e =? 0)%Z then
    match m with
    | Zpos p => S754_finite s p emin
    | _ => S754_zero s
    end
  else if (e =? 2 ^ ew - 1)%Z then
    if (m =? 0)%Z then S754_infinity s else S754_nan
  else
    match (m + 2 ^ mw)%Z with
    | Zpos p => S754_finite s p (e - 1 + emin)
    | _ => S754_nan
    end.

Definition bits_of_SF (prec ew : Z) (x : spec_float) : Z :=
  let mw := (prec - 1)%Z in
  let emin := (3 - 2 ^ (ew - 1) - prec)%Z in
  let sign (s : bool) := if s then (2 ^ (mw + ew))%Z else 0%Z in
  match x with
  | S754_zero s => sign s
  | S754_infinity s => (sign s + (2 ^ ew - 1) * 2 ^ mw)%Z
  | S754_nan => ((2 ^ ew - 1) * 2 ^ mw + 2 ^ (mw - 1))%Z
  | S754_finite s m e =>
      if (Zpos m <? 2 ^ mw)%Z then (sign s + Zpos m)%Z
      else (sign s + (e - emin + 1) * 2 ^ mw + (Zpos m - 2 ^ mw))%Z
  end.

(** Rounding of a number to the format of precision [prec]. *)
Definition SF_round (prec emax : Z) (x : spec_float) : spec_float :=
  match x with
  | S754_finite s m e => binary_normalize prec emax (cond_Zopp s (Zpos m)) e s
  | _ => x
  end.

Definition f32_bits (x : f32) : Z :=
  let '(F32 b0 b1 b2 b3) := x in Z.of_N (be_decode [b0; b1; b2; b3]).

Definition f64_bits (x : f64) : Z :=
  let '(F64 b0 b1 b2 b3 b4 b5 b6 b7) := x in
  Z.of_N (be_decode [b0; b1; b2; b3; b4; b5; b6; b7]).

Definition f32_of_bits (bits : Z) : f32 :=
  match be_encode 4 (Z.to_N bits) with
  | [b0; b1; b2; b3] => F32 b0 b1 b2 b3
  | _ => F32 x00 x00 x00 x00
  end.

Definition f64_of_bits (bits : Z) : f64 :=
  match be_encode 8 (Z.to_N bits) with
  | [b0; b1; b2; b3; b4; b5; b6; b7] => F64 b0 b1 b2 b3 b4 b5 b6 b7
  | _ => F64 x00 x00 x00 x00 x00 x00 x00 x00
  end.

Definition to_SF32 (x : f32) : spec_float := SF_of_bits 24 8 (f32_bits x).
Definition to_SF64 (x : f64) : spec_float := SF_of_bits 53 11 (f64_bits x).
Definition of_SF32 (x : spec_float) : f32 := f32_of_bits (bits_of_SF 24 8 x).
Definition of_SF64 (x : spec_float) : f64 := f64_of_bits (bits_of_SF 53 11 x).

Definition add (x y : f64) : f64 := of_SF64 (SFadd 53 1024 (to_SF64 x) (to_SF64 y)).
Definition sub (x y : f64) : f64 := of_SF64 (SFsub 53 1024 (to_SF64 x) (to_SF64 y)).
Definition div (x y : f64) : f64 := of_SF64 (SFdiv 53 1024 (to_SF64 x) (to_SF64 y)).

(** [float(n)] and [np.float32(n)] of an integer *)
Definition f64_of_Z (n : Z) : f64 := of_SF64 (binary_normalize 53 1024 n 0 false).
Definition f32_of_Z (n : Z) : f32 := of_SF32 (binary_normalize 24 128 n 0 false).

(** [astype('>f')] of a double and [astype(float)] of a single *)
Definition narrow (x : f64) : f32 := of_SF32 (SF_round 24 128 (to_SF64 x)).
Definition widen (x : f32) : f64 := of_SF64 (SF_round 53 1024 (to_SF32 x)).

Definition zero32 : f32 := F32 x00 x00 x00 x00.
Definition zero64 : f64 := F64 x00 x00 x00 x00 x00 x00 x00 x00.

End IEEE.

(** [struct.pack('>d', x)] and [struct.unpack('>d', l)[0]] *)
Definition pack_d (x : f64) : list byte :=
  let '(F64 b0 b1 b2 b3 b4 b5 b6 b7) := x in [b0; b1; b2; b3; b4; b5; b6; b7].

Definition unpack_d (l : list byte) : result f64 :=
  match l with
  | [b0; b1; b2; b3; b4; b5; b6; b7] => Ok (F64 b0 b1 b2 b3 b4 b5 b6 b7)
  | _ => Raise StructError
  end.

Definition pack_f (x : f32) : list byte :=
  let '(F32 b0 b1 b2 b3) := x in [b0; b1; b2; b3].

(** [np.fromfile(f, dtype='>f')]: the whole items left in the file. *)
Fixpoint np_fromfile_f (l : list byte) : list f32 :=
  match l with
  | b0 :: b1 :: b2 :: b3 :: r => F32 b0 b1 b2 b3 :: np_fromfile_f r
  | _ => []
  end.

(** The bytes of a C-contiguous [>f] array. *)
Definition tobytes (m : matrix f32) : list byte :=
  flat_map pack_f (concat (mrows m)).

(** ** numpy operations used by the codec *)

Definition matrix_map {A B} (f : A -> B) (m : matrix A) : matrix B :=
  Matrix (nrows m) (ncols m) (map (map f) (mrows m)).

(** [m[:, lo:]] and [m[:, :hi]] *)
Definition cols_from {A} (lo : nat) (m : matrix A) : matrix A :=
  Matrix (nrows m) (ncols m - lo) (map (skipn lo) (mrows m)).

Definition cols_to {A} (hi : nat) (m : matrix A) : matrix A :=
  Matrix (nrows m) (Nat.min hi (ncols m)) (map (firstn hi) (mrows m)).

(** [n] rows of [c] items each, cut from a flat list. *)
Fixpoint chunks {A} (n c : nat) (l : list A) : list (list A) :=
  match n with
  | O => []
  | S n' => firstn c l :: chunks n' c (skipn c l)
  end.

(** [flat.reshape(n, c)] *)
Definition np_reshape {A} (flat : list A) (n c : N) : result (matrix A) :=
  if (N.of_nat (length flat) =? n * c)%N then
    Ok (Matrix (N.to_nat n) (N.to_nat c) (chunks (N.to_nat n) (N.to_nat c) flat))
  else Raise ValueError.

(** Broadcasting of a list of [k] items along a row of [c] items: equal
    lengths, or a single item repeated. *)
Definition broadcast_row {A} (c : nat) (v : list A) : result (list A) :=
  if Nat.eqb (length v) c then Ok v
  else match v with
       | [x] => Ok (repeat x c)
       | _ => Raise ValueError
       end.

Definition zip_with {A B C} (f : A -> B -> C) (l : list A) (l' : list B) : list C :=
  map (fun xy => f (fst xy) (snd xy)) (combine l l').

(** [m += np.array(v).reshape(1, -1)] *)
Definition iadd_row (m : matrix f64) (v : list f64) : result (matrix f64) :=
  v' <- broadcast_row (ncols m) v ;;
  Ok (Matrix (nrows m) (ncols m) (map (fun r => zip_with IEEE.add r v') (mrows m))).

(** [m - np.array(v).reshape(1, -1)]: here the matrix may be the side
    that is broadcast. *)
Definition sub_row (m : matrix f64) (v : list f64) : result (matrix f64) :=
  if Nat.eqb (ncols m) 1 && negb (Nat.eqb (length v) 1) then
    Ok (Matrix (nrows m) (length v)
          (map (fun r => zip_with IEEE.sub (repeat (hd IEEE.zero64 r) (length v)) v)
             (mrows m)))
  else
    v' <- broadcast_row (ncols m) v ;;
    Ok (Matrix (nrows m) (ncols m) (map (fun r => zip_with IEEE.sub r v') (mrows m))).

(** [m - v] for a one-dimensional [v] of [m]'s width. *)
Definition sub_vec (m : matrix f64) (v : list f64) : matrix f64 :=
  Matrix (nrows m) (ncols m) (map (fun r => zip_with IEEE.sub r v) (mrows m)).

Definition column {A} (d : A) (j : nat) (m : matrix A) : list A :=
  map (fun r => nth j r d) (mrows m).

(** [np.mean(m, axis=0)]: the rows are added in order from zero, the sum
    is divided by the number of rows (0/0 is NaN). *)
Definition np_mean0 (m : matrix f64) : list f64 :=
  map (fun j => IEEE.div (fold_left IEEE.add (column IEEE.zero64 j m) IEEE.zero64)
                  (IEEE.f64_of_Z (Z.of_nat (nrows m))))
      (seq 0 (ncols m)).

(** [np.zeros((n, c)).astype('>f')] *)
Definition np_zeros (n c : nat) : matrix f32 :=
  Matrix n c (repeat (repeat IEEE.zero32 c) n).

(** Broadcasting of [x] to the shape [(n, c)]. *)
Definition broadcast_to {A} (n c : nat) (x : matrix A) : result (list (list A)) :=
  rows <- (if Nat.eqb (nrows x) n then Ok (mrows x)
           else match mrows x with
                | [r] => Ok (repeat r n)
                | _ => Raise ValueError
                end) ;;
  if Nat.eqb (ncols x) c then Ok rows
  else if Nat.eqb (ncols x) 1 then
    Ok (map (fun r => match r with
                      | y :: _ => repeat y c
                      | [] => []
                      end) rows)
  else Raise ValueError.

(** [a[:, lo:hi] = x] for [lo <= hi <= a.shape[1]] *)
Definition assign_cols {A} (lo hi : nat) (a x : matrix A) : result (matrix A) :=
  block <- broadcast_to (nrows a) (hi - lo) x ;;
  Ok (Matrix (nrows a) (ncols a)
        (zip_with (fun r br => firstn lo r ++ br ++ skipn hi r) (mrows a) block)).

(** ** Reading and writing *)

Section Codec.

(** [eval(s)] followed by [np.array(...).reshape(1, -1)]: the numbers of
    the resulting row, or [None] when either call raises or the value is
    not numeric.  What the evaluated text does besides is not
    modelled. *)
Variable py_eval : string -> option (list f64).

Definition shift_array (array : matrix f32) (shift : list f64)
  (config : option ConfigParser) : result (matrix f64) :=
  let newArray := matrix_map IEEE.widen array in
  newArray <- iadd_row newArray shift ;;
  match config with
  | Some config =>
      match (s <- sbf_get "GlobalShift" config ;;
             globalShift <- of_option EvalError (py_eval s) ;;
             iadd_row newArray globalShift) with
      | Ok shifted => Ok shifted
      | Raise _ => Ok newArray
      end
  | None => Ok newArray
  end.

(** The header file [sbf] as [configparser] parsed it; [None] is the
    value returned after the message is printed. *)
Definition read_sbf_header (sbf : ConfigParser) : option ConfigParser :=
  if od_mem "SBF" sbf then Some sbf else None.

(** [sbf] is the parsed header file and [sbf_data] the bytes of the
    companion [.data] file. *)
Definition read_sbf (sbf : ConfigParser) (sbf_data : list byte)
  : result (matrix f64 * option (matrix f32) * option ConfigParser) :=
  let config := read_sbf_header sbf in
  let bytes_ := firstn 64 sbf_data in
  Np <- unpack_uint 8 (slice 2 10 bytes_) ;;
  Ns <- unpack_uint 2 (slice 10 12 bytes_) ;;
  x_shift <- unpack_d (slice 12 20 bytes_) ;;
  y_shift <- unpack_d (slice 20 28 bytes_) ;;
  z_shift <- unpack_d (slice 28 36 bytes_) ;;
  array <- np_reshape (np_fromfile_f (skipn 64 sbf_data)) Np (Ns + 3) ;;
  let shift := [x_shift; y_shift; z_shift] in
  pc <- shift_array (cols_to 3 array) shift config ;;
  let sf := if negb (Ns =? 0)%N then Some (cols_from 3 array) else None in
  Ok (pc, sf, config).

(** [{f'SF{k+1}': f'{k+1}' for k in range(SFCount)}] *)
Definition dict_SF (SFCount : nat) : section :=
  map (fun k => (SF (k + 1), PyStr.str (k + 1))) (py_range 0 (Z.of_nat SFCount)).

(** The result is the content of the two files: the header, which is also
    the final state of [config], and the bytes of the [.data] file.  An
    exception raised after the header file was written loses it here. *)
Definition write_sbf (pc : matrix f64) (sf : option (matrix f64))
  (config : option ConfigParser) (add_index : bool) (normals : option (matrix f64))
  : result (ConfigParser * list byte) :=
  let SFCount := match sf with
                 | Some sf => ncols sf
                 | None => 0
                 end in
  let Points := nrows pc in
  config <- match config with
            | None =>
                Ok [("SBF", [("Points", PyStr.str (Z.of_nat Points));
                             ("SFCount", PyStr.str (Z.of_nat SFCount));
                             ("GlobalShift", "0., 0., 0.")] ++ dict_SF SFCount)]
            | Some config =>
                config <- sbf_set "Points" (PyStr.str (Z.of_nat Points)) config ;;
                sbf_set "SFCount" (PyStr.str (Z.of_nat SFCount)) config
            end ;;
  '(SFCount, config) <-
    (if add_index then
       sec <- sbf_section config ;;
       let SFCount := if od_mem "SFCount" sec then SFCount + 1 else 1 in
       config <- sbf_set "SFcount" (PyStr.str (Z.of_nat SFCount)) config ;;
       config <- sbf_set (SF (Z.of_nat SFCount)) "index" config ;;
       Ok (SFCount, config)
     else Ok (SFCount, config)) ;;
  '(SFCount, config) <-
    (match normals with
     | Some _ =>
         sec <- sbf_section config ;;
         let SFCount := if od_mem "SFCount" sec then SFCount + 3 else 3 in
         config <- sbf_set "SFcount" (PyStr.str (Z.of_nat SFCount)) config ;;
         config <- sbf_set (SF (Z.of_nat SFCount + 1)) "Nx" config ;;
         config <- sbf_set (SF (Z.of_nat SFCount + 2)) "Ny" config ;;
         config <- sbf_set (SF (Z.of_nat SFCount + 3)) "Nz" config ;;
         Ok (SFCount, config)
     | None => Ok (SFCount, config)
     end) ;;
  s <- sbf_get "GlobalShift" config ;;
  globalShift <- of_option EvalError (py_eval s) ;;
  pcOrig <- sub_row pc globalShift ;;
  let shift := np_mean0 pcOrig in
  let a := np_zeros Points (SFCount + 3) in
  a <- assign_cols 0 3 a (matrix_map IEEE.narrow (sub_vec pcOrig shift)) ;;
  a <- (if negb (Nat.eqb SFCount 0) then
          match sf with
          | Some sf => assign_cols 3 (SFCount + 3) a (matrix_map IEEE.narrow sf)
          | None => Raise AttributeError
          end
        else Ok a) ;;
  a <- (if add_index then
          let b := np_zeros Points (SFCount + 1) in
          b <- assign_cols 0 SFCount b a ;;
          assign_cols SFCount (SFCount + 1) b
            (Matrix Points 1
               (map (fun i => [IEEE.f32_of_Z (Z.of_nat i)]) (seq 0 Points)))
        else Ok a) ;;
  Np <- pack_uint 8 (N.of_nat Points) ;;
  Ns <- pack_uint 2 (N.of_nat SFCount) ;;
  shift0 <- of_option IndexError (nth_error shift 0) ;;
  shift1 <- of_option IndexError (nth_error shift 1) ;;
  shift2 <- of_option IndexError (nth_error shift 2) ;;
  Ok (config,
      [x2a; x2a] ++ Np ++ Ns ++ pack_d shift0 ++ pack_d shift1 ++ pack_d shift2
      ++ repeat x00 (63 - 36 + 1) ++ tobytes a).

End Codec.

(** ** What a header gives to the reading

    The global shift is the value of the key [GlobalShift] when the header
    has that key and its text evaluates; it is added when it has one number
    or as many as the matrix has columns, and dropped otherwise. *)

Definition header_global_shift (py_eval : string -> option (list f64))
  (config : option ConfigParser) : option (list f64) :=
  match config with
  | Some config =>
      match sbf_get "GlobalShift" config with
      | Ok s => py_eval s
      | Raise _ => None
      end
  | None => None
  end.

Definition apply_global_shift (g : option (list f64)) (m : matrix f64) : matrix f64 :=
  match g with
  | Some g =>
      match iadd_row m g with
      | Ok m' => m'
      | Raise _ => m
      end
  | None => m
  end.

(** ** The layout of a payload

    The 64 bytes of a preamble that declares [Np] points and [Ns] scalar
    fields, with the local shift [x], [y], [z]. *)

Definition preamble (Np Ns : N) (x y z : f64) : list byte :=
  [x2a; x2a] ++ be_encode 8 Np ++ be_encode 2 Ns
  ++ pack_d x ++ pack_d y ++ pack_d z ++ repeat x00 28.

(** ** What a payload declares

    The fields of the 64-byte preamble and the numbers that follow it. *)

Definition payload_Np (sbf_data : list byte) : N :=
  be_decode (slice 2 10 (firstn 64 sbf_data)).

Definition payload_Ns (sbf_data : list byte) : N :=
  be_decode (slice 10 12 (firstn 64 sbf_data)).

Definition payload_shift (sbf_data : list byte) : result (list f64) :=
  x_shift <- unpack_d (slice 12 20 (firstn 64 sbf_data)) ;;
  y_shift <- unpack_d (slice 20 28 (firstn 64 sbf_data)) ;;
  z_shift <- unpack_d (slice 28 36 (firstn 64 sbf_data)) ;;
  Ok [x_shift; y_shift; z_shift].

(** The rows of [3 + Ns] numbers. *)
Definition payload_rows (sbf_data : list byte) : list (list f32) :=
  chunks (N.to_nat (payload_Np sbf_data)) (N.to_nat (payload_Ns sbf_data + 3))
    (np_fromfile_f (skipn 64 sbf_data)).

(** A whole preamble, and as many numbers after it as it declares (up to
    three bytes may trail). *)
Definition wf_payload (sbf_data : list byte) : bool :=
  Nat.leb 64 (length sbf_data)
  && (N.of_nat ((length sbf_data - 64) / 4)
      =? payload_Np sbf_data * (payload_Ns sbf_data + 3))%N.

(** ** What writing stores

    For points [pc] and a global shift [g] of three numbers: the local
    shift is the mean of the rows of [pc - g], and the stored coordinates
    are the narrowed differences [(pc - g) - local shift]. *)

Definition without_global_shift (pc : matrix f64) (g : list f64) : matrix f64 :=
  Matrix (nrows pc) (ncols pc) (map (fun r => zip_with IEEE.sub r g) (mrows pc)).

Definition local_shift (pc : matrix f64) (g : list f64) : list f64 :=
  np_mean0 (without_global_shift pc g).

Definition stored_coordinates (pc : matrix f64) (g : list f64) : list (list f32) :=
  map (fun r => map IEEE.narrow (zip_with IEEE.sub r (local_shift pc g)))
    (mrows (without_global_shift pc g)).

(** The scalar fields of a document may be absent when it has none. *)
Definition sf_count (sf : option (matrix f64)) : nat :=
  match sf with
  | Some sf => ncols sf
  | None => 0
  end.

Definition stored_fields (n : nat) (sf : option (matrix f64)) : list (list f32) :=
  match sf with
  | Some sf => map (map IEEE.narrow) (mrows sf)
  | None => repeat [] n
  end.

Definition wf_scalar_fields (n : nat) (sf : option (matrix f64)) : Prop :=
  match sf with
  | Some sf => wf_matrix sf /\ nrows sf = n
  | None => True
  end.

(** The scalar fields read back from what [sf] stores. *)
Definition fields_read_back (sf : option (matrix f64)) : option (matrix f32) :=
  match sf with
  | Some sf => if Nat.eqb (ncols sf) 0 then None else Some (matrix_map IEEE.narrow sf)
  | None => None
  end.

(** The coordinates read back from what [pc] stores under the global
    shift [g]: the stored value widened, plus the local shift, plus the
    global shift. *)
Definition coordinates_read_back (pc : matrix f64) (g : list f64) : matrix f64 :=
  Matrix (nrows pc) 3
    (map (fun r => zip_with IEEE.add
                     (zip_with IEEE.add (map IEEE.widen r) (local_shift pc g)) g)
       (stored_coordinates pc g)).

(** ** Well-formed documents

    The invariant of a document: the header counts the columns of the
    scalar-field matrix, its scalar-field keys are [SF1] to [SFn] and the
    names they hold are pairwise different. *)

Fixpoint all_digits (s : string) : bool :=
  match s with
  | EmptyString => true
  | String c r => PyStr.is_digit c && all_digits r
  end.

Definition is_sf_key (key : string) : bool :=
  match sf_key_index key with
  | Some _ => true
  | None => false
  end.

Fixpoint nodupb (l : list string) : bool :=
  match l with
  | [] => true
  | x :: r => negb (existsb (String.eqb x) r) && nodupb r
  end.

(** The names of the scalar fields, in the order of the keys. *)
Definition sf_names (sec : section) : list string :=
  map snd (filter (fun kv => is_sf_key (fst kv)) sec).

Definition wf_header (n : nat) (sec : section) : bool :=
  match od_get "SFCount" sec with
  | Some s => String.eqb s (PyStr.str (Z.of_nat n))
  | None => false
  end
  && nodupb (od_keys sec)
  && forallb (fun key => negb (is_sf_key key)
                         || existsb (fun k => String.eqb key (SF k))
                              (py_range 1 (Z.of_nat n + 1)))
       (od_keys sec)
  && forallb (fun k => od_mem (SF k) sec) (py_range 1 (Z.of_nat n + 1))
  && nodupb (sf_names sec).

(** The index the comprehension ends with for [name]: that of the last
    scalar-field key holding it. *)
Fixpoint last_index (name : string) (sec : section) : option Z :=
  match sec with
  | [] => None
  | (k, v) :: rest =>
      match last_index name rest with
      | Some i => Some i
      | None => if String.eqb name v then sf_key_index k else None
      end
  end.

(** The same invariant, one fact at a time. *)
Record WfHeader (n : nat) (sec : section) : Prop := {
  wfh_count : od_get "SFCount" sec = Some (PyStr.str (Z.of_nat n));
  wfh_nodup : NoDup (od_keys sec);
  wfh_key : forall key i,
      In key (od_keys sec) -> sf_key_index key = Some i ->
      key = SF (i + 1) /\ (0 <= i < Z.of_nat n)%Z;
  wfh_present : forall k, (1 <= k <= Z.of_nat n)%Z -> od_get (SF k) sec <> None;
  wfh_names : NoDup (sf_names sec)
}.

(** ** Sample documents *)

Module Sample.

(** A header of two points and two scalar fields. *)
Definition header : ConfigParser :=
  [("SBF", [("Points", "2"); ("SFCount", "2"); ("GlobalShift", "0., 0., 0.");
            ("SF1", "a"); ("SF2", "b")])].

Definition num (z : Z) : f64 := IEEE.f64_of_Z z.
Definition num32 (z : Z) : f32 := IEEE.f32_of_Z z.

(** Its scalar fields, two rows of two values. *)
Definition sf : matrix f32 := Matrix 2 2 [[num32 1; num32 2]; [num32 3; num32 4]].

Definition column : list f32 := [num32 7; num32 8].

(** The evaluator on the texts of the samples: two triples of numbers,
    and a text that is no Python expression, for which [eval] raises a
    SyntaxError. *)
Definition eval (s : string) : option (list f64) :=
  if String.eqb s "0., 0., 0." then Some [num 0; num 0; num 0]
  else if String.eqb s "1., 0., 0." then Some [num 1; num 0; num 0]
  else if String.eqb s "1.0; 2.0; 3.0" then None
  else None.

(** The payload of the sample document: two points, two scalar fields. *)
Definition payload : list byte :=
  preamble 2 2 (num 10) (num 20) (num 30)
  ++ flat_map pack_f [num32 1; num32 2; num32 3; num32 1; num32 2;
                      num32 4; num32 5; num32 6; num32 3; num32 4].

(** A payload of 99 points without scalar fields, all at the origin. *)
Definition payload99 : list byte :=
  preamble 99 0 (num 0) (num 0) (num 0) ++ repeat x00 (99 * 3 * 4).

(** A header that declares 100 points. *)
Definition header100 : ConfigParser :=
  [("SBF", [("Points", "100"); ("SFCount", "0"); ("GlobalShift", "0., 0., 0.")])].

(** A header whose global shift is no triple. *)
Definition header_no_triple : ConfigParser :=
  [("SBF", [("Points", "2"); ("SFCount", "2"); ("GlobalShift", "1.0; 2.0; 3.0");
            ("SF1", "a"); ("SF2", "b")])].

(** A header whose counts are no integers and whose keys are not
    contiguous. *)
Definition header_unchecked : ConfigParser :=
  [("SBF", [("Points", "many"); ("SFCount", "-1"); ("SF1", "a"); ("SF3", "b")])].

(** A header without the section. *)
Definition header_no_section : ConfigParser :=
  [("LAS", [("Points", "2")])].

(** Two points in double precision, two scalar fields for them to go
    with [header], and a single scalar field to go with [header1]. *)
Definition points : matrix f64 :=
  Matrix 2 3 [[num 11; num 22; num 33]; [num 14; num 25; num 36]].

Definition fields : matrix f64 := Matrix 2 2 [[num 1; num 2]; [num 3; num 4]].

Definition field : matrix f64 := Matrix 2 1 [[num 5]; [num 6]].

Definition header1 : ConfigParser :=
  [("SBF", [("Points", "2"); ("SFCount", "1"); ("GlobalShift", "0., 0., 0.");
            ("SF1", "a")])].

(** Two points whose first coordinates are 2^53 + 2 and 1, under a global
    shift of 1 along the first axis. *)
Definition points_far : matrix f64 :=
  Matrix 2 3 [[num (2 ^ 53 + 2); num 0; num 0]; [num 1; num 0; num 0]].

Definition header_shifted : ConfigParser :=
  [("SBF", [("Points", "2"); ("SFCount", "0"); ("GlobalShift", "1., 0., 0.")])].

End Sample.

(** ** What the loops of [remove_sf] leave

    The section [s] after the loop [for idx in idxs:
    new['SBF'][SF idx] = config['SBF'][SF (src idx)]], where [sec] is the
    section of [config]. *)

Definition copied (sec : section) (src : Z -> Z) (idxs : list Z) (s : section)
  : section :=
  fold_left (fun s idx => match od_get (SF (src idx)) sec with
                          | Some v => od_set (SF idx) v s
                          | None => s
                          end) idxs s.

(** The key of the old header whose name the key [SF k] of the new header
    holds, after the removal of the column [i]. *)
Definition key_before_removal (i k : Z) : Z := if (k <=? i)%Z then k else (k + 1)%Z.

(** The index of the column [j] after the removal of the column [i]. *)
Definition index_after_removal (i j : Z) : Z := if (j <? i)%Z then j else (j - 1)%Z.

(** The section that [remove_sf] returns for a header of [n] fields and
    the column [i]. *)
Definition section_after_removal (sec : section) (n i : Z) : section :=
  copied sec (fun idx => (idx + 1)%Z) (py_range (i + 1) n)
    (od_del (SF n) (od_set "SFCount" (PyStr.str (n - 1)) sec)).

(** ** The two halves of [write_sbf]

    The header that [write_sbf] builds when it is given none. *)
Definition generated_header (Points SFCount : nat) : ConfigParser :=
  [("SBF", [("Points", PyStr.str (Z.of_nat Points));
            ("SFCount", PyStr.str (Z.of_nat SFCount));
            ("GlobalShift", "0., 0., 0.")] ++ dict_SF SFCount)].

(** The first half of [write_sbf], up to the writing of the header file:
    the number of columns to store after the coordinates, and the header
    that is written. *)
Definition write_sbf_header (pc : matrix f64) (sf : option (matrix f64))
  (config : option ConfigParser) (add_index : bool) (normals : option (matrix f64))
  : result (nat * ConfigParser) :=
  let SFCount := match sf with
                 | Some sf => ncols sf
                 | None => 0
                 end in
  let Points := nrows pc in
  config <- match config with
            | None =>
                Ok [("SBF", [("Points", PyStr.str (Z.of_nat Points));
                             ("SFCount", PyStr.str (Z.of_nat SFCount));
                             ("GlobalShift", "0., 0., 0.")] ++ dict_SF SFCount)]
            | Some config =>
                config <- sbf_set "Points" (PyStr.str (Z.of_nat Points)) config ;;
                sbf_set "SFCount" (PyStr.str (Z.of_nat SFCount)) config
            end ;;
  '(SFCount, config) <-
    (if add_index then
       sec <- sbf_section config ;;
       let SFCount := if od_mem "SFCount" sec then SFCount + 1 else 1 in
       config <- sbf_set "SFcount" (PyStr.str (Z.of_nat SFCount)) config ;;
       config <- sbf_set (SF (Z.of_nat SFCount)) "index" config ;;
       Ok (SFCount, config)
     else Ok (SFCount, config)) ;;
  match normals with
  | Some _ =>
      sec <- sbf_section config ;;
      let SFCount := if od_mem "SFCount" sec then SFCount + 3 else 3 in
      config <- sbf_set "SFcount" (PyStr.str (Z.of_nat SFCount)) config ;;
      config <- sbf_set (SF (Z.of_nat SFCount + 1)) "Nx" config ;;
      config <- sbf_set (SF (Z.of_nat SFCount + 2)) "Ny" config ;;
      config <- sbf_set (SF (Z.of_nat SFCount + 3)) "Nz" config ;;
      Ok (SFCount, config)
  | None => Ok (SFCount, config)
  end.

(** The second half, from the evaluation of the global shift to the
    writing of the data file, for the header [config] and the count
    [SFCount] of the first half. *)
Definition write_sbf_payload (py_eval : string -> option (list f64))
  (pc : matrix f64) (sf : option (matrix f64)) (config : ConfigParser)
  (SFCount : nat) (add_index : bool) : result (ConfigParser * list byte) :=
  let Points := nrows pc in
  s <- sbf_get "GlobalShift" config ;;
  globalShift <- of_option EvalError (py_eval s) ;;
  pcOrig <- sub_row pc globalShift ;;
  let shift := np_mean0 pcOrig in
  let a := np_zeros Points (SFCount + 3) in
  a <- assign_cols 0 3 a (matrix_map IEEE.narrow (sub_vec pcOrig shift)) ;;
  a <- (if negb (Nat.eqb SFCount 0) then
          match sf with
          | Some sf => assign_cols 3 (SFCount + 3) a (matrix_map IEEE.narrow sf)
          | None => Raise AttributeError
          end
        else Ok a) ;;
  a <- (if add_index then
          let b := np_zeros Points (SFCount + 1) in
          b <- assign_cols 0 SFCount b a ;;
          assign_cols SFCount (SFCount + 1) b
            (Matrix Points 1
               (map (fun i => [IEEE.f32_of_Z (Z.of_nat i)]) (seq 0 Points)))
        else Ok a) ;;
  Np <- pack_uint 8 (N.of_nat Points) ;;
  Ns <- pack_uint 2 (N.of_nat SFCount) ;;
  shift0 <- of_option IndexError (nth_error shift 0) ;;
  shift1 <- of_option IndexError (nth_error shift 1) ;;
  shift2 <- of_option IndexError (nth_error shift 2) ;;
  Ok (config,
      [x2a; x2a] ++ Np ++ Ns ++ pack_d shift0 ++ pack_d shift1 ++ pack_d shift2
      ++ repeat x00 (63 - 36 + 1) ++ tobytes a).

(** The number of columns stored after the coordinates. *)
Definition stored_count (sf : option (matrix f64)) (add_index : bool)
  (normals : option (matrix f64)) : nat :=
  sf_count sf + (if add_index then 1 else 0)
  + match normals with
    | Some _ => 3
    | None => 0
    end.

(** The section that is written for a header whose section is [sec]. *)
Definition written_section (pc : matrix f64) (sf : option (matrix f64))
  (add_index : bool) (normals : option (matrix f64)) (sec : section) : section :=
  let sec := od_set "SFCount" (PyStr.str (Z.of_nat (sf_count sf)))
               (od_set "Points" (PyStr.str (Z.of_nat (nrows pc))) sec) in
  let sec := if add_index then
               od_set (SF (Z.of_nat (stored_count sf true None))) "index"
                 (od_set "SFcount" (PyStr.str (Z.of_nat (stored_count sf true None)))
                    sec)
             else sec in
  match normals with
  | Some _ =>
      let n := Z.of_nat (stored_count sf add_index normals) in
      od_set (SF (n + 3)) "Nz"
        (od_set (SF (n + 2)) "Ny"
           (od_set (SF (n + 1)) "Nx"
              (od_set "SFcount" (PyStr.str n) sec)))
  | None => sec
  end.

(** ** The files of sample calls *)

(** The two files of a call that returns, nothing for a call that raises. *)
Definition files_of (r : result (ConfigParser * list byte))
  : ConfigParser * list byte :=
  match r with
  | Ok files => files
  | Raise _ => ([], [])
  end.

Module SampleFiles.

(** The sample document written as it is. *)
Definition plain : ConfigParser * list byte :=
  files_of (write_sbf Sample.eval Sample.points (Some Sample.fields)
              (Some Sample.header) false None).

(** The sample document of one scalar field, written with normals. *)
Definition with_normals : ConfigParser * list byte :=
  files_of (write_sbf Sample.eval Sample.points (Some Sample.field)
              (Some Sample.header1) false (Some Sample.points)).

End SampleFiles.

(** * Lemmas *)

(** ** Decimal strings *)

Lemma all_digits_string_of_uint (d : Decimal.uint) :
  all_digits (NilEmpty.string_of_uint d) = true.
Proof. induction d; simpl; auto. Qed.

Lemma all_digits_NilZero (d : Decimal.uint) :
  all_digits (NilZero.string_of_uint d) = true
  /\ NilZero.string_of_uint d <> EmptyString.
Proof.
  destruct d; simpl; split; try reflexivity; try discriminate;
    apply all_digits_string_of_uint.
Qed.

Lemma str_nonneg (z : Z) :
  (0 <= z)%Z -> exists d, PyStr.str z = NilZero.string_of_uint d /\ Z.of_uint d = z.
Proof.
  intros Hz. unfold PyStr.str. destruct z as [|p|p]; try lia.
  - exists Decimal.zero. split; reflexivity.
  - exists (Pos.to_uint p). split; [reflexivity|].
    change (Z.of_int (Z.to_int (Zpos p)) = Zpos p). apply DecimalZ.of_to.
Qed.

Lemma is_digit_not_space c : PyStr.is_digit c = true -> PyStr.is_space c = false.
Proof.
  destruct c as [[|] [|] [|] [|] [|] [|] [|] [|]]; simpl; intros H;
    try reflexivity; discriminate H.
Qed.

Lemma is_digit_cases c :
  PyStr.is_digit c = true ->
  c <> "_"%char /\ c <> "-"%char /\ c <> "+"%char /\ c <> "S"%char.
Proof.
  destruct c as [[|] [|] [|] [|] [|] [|] [|] [|]]; simpl; intros H;
    try discriminate H; repeat split; discriminate.
Qed.

Lemma rstrip_digits s : all_digits s = true -> PyStr.rstrip s = s.
Proof.
  induction s as [|c r IH]; simpl; [reflexivity|].
  intros H. apply andb_prop in H as [Hc Hr]. rewrite (IH Hr).
  destruct r; [rewrite (is_digit_not_space _ Hc)|]; reflexivity.
Qed.

Lemma strip_digits s : all_digits s = true -> PyStr.strip s = s.
Proof.
  intros H. unfold PyStr.strip.
  assert (PyStr.lstrip s = s) as ->.
  { destruct s as [|c r]; [reflexivity|]. simpl in *.
    apply andb_prop in H as [Hc _]. now rewrite (is_digit_not_space _ Hc). }
  now apply rstrip_digits.
Qed.

Lemma drop_underscores_digits s b :
  all_digits s = true -> PyStr.drop_underscores b s = Some s.
Proof.
  revert b. induction s as [|c r IH]; intros b H; [reflexivity|].
  simpl in H. apply andb_prop in H as [Hc Hr].
  destruct (is_digit_cases _ Hc) as (Hu & _).
  cbn [PyStr.drop_underscores].
  rewrite (IH _ Hr).
  destruct c as [[|] [|] [|] [|] [|] [|] [|] [|]]; try reflexivity; congruence.
Qed.

Lemma digits_string_of_uint d :
  PyStr.digits (NilZero.string_of_uint d) = Some (Z.of_uint d).
Proof.
  destruct (all_digits_NilZero d) as [Hd Hne].
  unfold PyStr.digits. rewrite (drop_underscores_digits _ _ Hd).
  destruct (NilZero.string_of_uint d) eqn:E; [congruence|]. rewrite <- E.
  destruct d; try (cbn [NilZero.string_of_uint]; rewrite NilEmpty.usu; reflexivity).
  reflexivity.
Qed.

Lemma int_str (z : Z) : (0 <= z)%Z -> PyStr.int (PyStr.str z) = Some z.
Proof.
  intros Hz. destruct (str_nonneg z Hz) as (d & -> & <-).
  destruct (all_digits_NilZero d) as [Hd Hne].
  unfold PyStr.int. rewrite (strip_digits _ Hd).
  pose proof (digits_string_of_uint d) as Hdig.
  destruct (NilZero.string_of_uint d) as [|c r]; [congruence|].
  simpl in Hd. apply andb_prop in Hd as [Hc _].
  destruct (is_digit_cases _ Hc) as (_ & Hm & Hp & _).
  destruct c as [[|] [|] [|] [|] [|] [|] [|] [|]]; try exact Hdig; congruence.
Qed.

Lemma str_inj (z z' : Z) :
  (0 <= z)%Z -> (0 <= z')%Z -> PyStr.str z = PyStr.str z' -> z = z'.
Proof.
  intros Hz Hz' E. apply int_str in Hz, Hz'. rewrite E in Hz. congruence.
Qed.

Lemma py_int_str (z : Z) : (0 <= z)%Z -> py_int (PyStr.str z) = Ok z.
Proof. intros Hz. unfold py_int. now rewrite int_str. Qed.

Lemma split_SF_aux_digits s cur :
  all_digits s = true -> PyStr.split_SF_aux cur s = [String.append cur s].
Proof.
  revert cur. induction s as [|c r IH]; intros cur H.
  - simpl. f_equal. induction cur; simpl; congruence.
  - simpl in H. apply andb_prop in H as [Hc Hr].
    destruct (is_digit_cases _ Hc) as (_ & _ & _ & HS).
    assert (PyStr.split_SF_aux cur (String c r)
            = PyStr.split_SF_aux (String.append cur (String c EmptyString)) r) as ->.
    { destruct c as [[|] [|] [|] [|] [|] [|] [|] [|]]; try reflexivity; congruence. }
    rewrite (IH _ Hr). f_equal.
    clear. induction cur; simpl; congruence.
Qed.

Lemma split_SF_SF (k : Z) :
  (0 <= k)%Z -> PyStr.split_SF (SF k) = [EmptyString; PyStr.str k].
Proof.
  intros Hk. destruct (str_nonneg k Hk) as (d & E & _).
  destruct (all_digits_NilZero d) as [Hd _]. rewrite <- E in Hd.
  unfold PyStr.split_SF, SF. simpl.
  now rewrite (split_SF_aux_digits _ _ Hd).
Qed.

Lemma sf_key_index_SF (k : Z) : (0 <= k)%Z -> sf_key_index (SF k) = Some (k - 1)%Z.
Proof.
  intros Hk. unfold sf_key_index, is_int.
  rewrite (split_SF_SF k Hk), (int_str k Hk). reflexivity.
Qed.

Lemma SF_inj (k k' : Z) : (0 <= k)%Z -> (0 <= k')%Z -> SF k = SF k' -> k = k'.
Proof.
  intros Hk Hk' E. unfold SF in E. simpl in E. injection E as E.
  now apply str_inj.
Qed.

Lemma SF_eqb (k k' : Z) :
  (0 <= k)%Z -> (0 <= k')%Z -> String.eqb (SF k) (SF k') = (k =? k')%Z.
Proof.
  intros Hk Hk'. destruct (Z.eqb_spec k k') as [->|Hne].
  - apply String.eqb_refl.
  - apply String.eqb_neq. intros E. apply Hne. now apply SF_inj.
Qed.

Lemma SF_not_SFCount (k : Z) : (0 <= k)%Z -> String.eqb (SF k) "SFCount" = false.
Proof.
  intros Hk. apply String.eqb_neq. intros E.
  pose proof (sf_key_index_SF k Hk) as H. rewrite E in H. discriminate H.
Qed.

(** ** Ordered dictionaries *)

Section OrderedDictLemmas.
Context {V : Type}.
Implicit Types (d : odict V) (k : string) (v : V).

Lemma od_get_set k k' v d :
od_get k (od_set k' v d) = if String.eqb k k' then Some v else od_get k d.
Proof.
induction d as [|[k0 v0] d IH]; simpl.
- destruct (String.eqb_spec k k'); reflexivity.
- destruct (String.eqb_spec k' k0) as [->|Hne]; simpl.
  + destruct (String.eqb_spec k k0); reflexivity.
  + rewrite IH. destruct (String.eqb_spec k k0) as [->|]; [|reflexivity].
    destruct (String.eqb_spec k0 k'); congruence.
Qed.

Lemma od_get_set_same k v d : od_get k (od_set k v d) = Some v.
Proof. now rewrite od_get_set, String.eqb_refl. Qed.

Lemma od_set_set k v v' d : od_set k v (od_set k v' d) = od_set k v d.
Proof.
induction d as [|[k0 v0] d IH]; simpl.
- now rewrite String.eqb_refl.
- destruct (String.eqb_spec k k0) as [->|Hne]; simpl.
  + now rewrite String.eqb_refl.
  + destruct (String.eqb_spec k k0); [congruence|]. now rewrite IH.
Qed.

Lemma od_set_id k v d : od_get k d = Some v -> od_set k v d = d.
Proof.
induction d as [|[k0 v0] d IH]; simpl; [discriminate|].
destruct (String.eqb_spec k k0) as [->|Hne].
- now intros [= ->].
- intros H. now rewrite IH.
Qed.

Lemma od_get_In k v d : od_get k d = Some v -> In (k, v) d.
Proof.
induction d as [|[k0 v0] d IH]; simpl; [discriminate|].
destruct (String.eqb_spec k k0) as [->|Hne].
- intros [= ->]. now left.
- intros H. right. now apply IH.
Qed.

Lemma od_get_None k d : od_get k d = None <-> ~ In k (od_keys d).
Proof.
induction d as [|[k0 v0] d IH]; simpl; [tauto|].
destruct (String.eqb_spec k k0) as [->|Hne].
- split; [discriminate|]. intros H. exfalso. apply H. now left.
- rewrite IH. split; [|tauto]. intros H [E|HI]; [congruence|tauto].
Qed.

Lemma od_set_absent k v d : od_get k d = None -> od_set k v d = d ++ [(k, v)].
Proof.
induction d as [|[k0 v0] d IH]; simpl; [reflexivity|].
destruct (String.eqb_spec k k0) as [->|Hne]; [discriminate|].
intros H. now rewrite IH.
Qed.

Lemma od_set_app_present k v d d' :
od_get k d <> None -> od_set k v (d ++ d') = od_set k v d ++ d'.
Proof.
induction d as [|[k0 v0] d IH]; simpl; [congruence|].
destruct (String.eqb_spec k k0) as [->|Hne]; [reflexivity|].
intros H. now rewrite IH.
Qed.

Lemma od_del_absent k d : od_get k d = None -> od_del k d = d.
Proof.
induction d as [|[k0 v0] d IH]; simpl; [reflexivity|].
destruct (String.eqb_spec k k0) as [->|Hne]; [discriminate|].
intros H. now rewrite IH.
Qed.

Lemma od_del_app k d d' : od_del k (d ++ d') = od_del k d ++ od_del k d'.
Proof.
induction d as [|[k0 v0] d IH]; simpl; [reflexivity|].
destruct (String.eqb k k0); simpl; now rewrite IH.
Qed.

Lemma od_del_snoc k v d : od_get k d = None -> od_del k (d ++ [(k, v)]) = d.
Proof.
intros H. rewrite od_del_app, (od_del_absent _ _ H). simpl.
rewrite String.eqb_refl. apply app_nil_r.
Qed.

Lemma od_get_app k d d' :
od_get k (d ++ d') = match od_get k d with
                     | Some v => Some v
                     | None => od_get k d'
                     end.
Proof.
induction d as [|[k0 v0] d IH]; simpl; [reflexivity|].
destruct (String.eqb k k0); [reflexivity|apply IH].
Qed.

Lemma od_keys_set_present k v d :
od_get k d <> None -> od_keys (od_set k v d) = od_keys d.
Proof.
induction d as [|[k0 v0] d IH]; simpl; [congruence|].
destruct (String.eqb_spec k k0) as [->|Hne]; [reflexivity|].
intros H. simpl. f_equal. now apply IH.
Qed.
End OrderedDictLemmas.

(** ** The header's SBF section *)

Lemma sbf_get_eq (config : ConfigParser) (sec : section) (key : string) :
  od_get "SBF" config = Some sec ->
  sbf_get key config = of_option KeyError (od_get key sec).
Proof. intros H. unfold sbf_get, sbf_section. now rewrite H. Qed.

Lemma sbf_set_eq (config : ConfigParser) (sec : section) (key value : string) :
  od_get "SBF" config = Some sec ->
  sbf_set key value config = Ok (od_set "SBF" (od_set key value sec) config).
Proof. intros H. unfold sbf_set, sbf_section. now rewrite H. Qed.

Lemma sbf_remove_option_eq (config : ConfigParser) (sec : section) (key : string) :
  od_get "SBF" config = Some sec ->
  sbf_remove_option key config = Ok (od_set "SBF" (od_del key sec) config).
Proof. intros H. unfold sbf_remove_option, sbf_section. now rewrite H. Qed.

Lemma index_of_eq (config : ConfigParser) (sec : section) (name : string) :
  od_get "SBF" config = Some sec ->
  index_of name config = of_option KeyError (od_get name (name_index_of sec [])).
Proof.
  intros H. unfold index_of, get_name_index_dict, sbf_section. now rewrite H.
Qed.

(** ** The name-to-index dictionary *)

Lemma name_index_of_get (name : string) (sec : section) (acc : odict Z) :
  od_get name (name_index_of sec acc)
  = match last_index name sec with
    | Some i => Some i
    | None => od_get name acc
    end.
Proof.
  revert acc. induction sec as [|[k v] sec IH]; intros acc; simpl; [reflexivity|].
  destruct (sf_key_index k) as [i|] eqn:Hk; rewrite IH.
  - destruct (last_index name sec); [reflexivity|].
    rewrite od_get_set. destruct (String.eqb name v); reflexivity.
  - destruct (last_index name sec); [reflexivity|].
    destruct (String.eqb name v); reflexivity.
Qed.

Lemma index_of_last (config : ConfigParser) (sec : section) (name : string) :
  od_get "SBF" config = Some sec ->
  index_of name config = of_option KeyError (last_index name sec).
Proof.
  intros H. rewrite (index_of_eq _ _ _ H), name_index_of_get.
  now destruct (last_index name sec).
Qed.

Lemma last_index_app (name : string) (sec sec' : section) :
  last_index name (sec ++ sec')
  = match last_index name sec' with
    | Some i => Some i
    | None => last_index name sec
    end.
Proof.
  induction sec as [|[k v] sec IH]; simpl.
  - now destruct (last_index name sec').
  - rewrite IH. destruct (last_index name sec'); reflexivity.
Qed.

Lemma last_index_Some (name : string) (sec : section) (i : Z) :
  last_index name sec = Some i ->
  exists key, In (key, name) sec /\ sf_key_index key = Some i.
Proof.
  induction sec as [|[k v] sec IH]; simpl; [discriminate|].
  destruct (last_index name sec) as [j|].
  - intros [= <-]. destruct (IH eq_refl) as (key & HI & Hk). eauto.
  - destruct (String.eqb_spec name v) as [->|]; [|discriminate].
    intros H. exists k. auto.
Qed.

Lemma last_index_None (name : string) (sec : section) :
  last_index name sec = None <->
  forall key, In (key, name) sec -> sf_key_index key = None.
Proof.
  induction sec as [|[k v] sec IH]; simpl; [tauto|].
  destruct (last_index name sec) as [j|].
  - split; [discriminate|]. intros H.
    assert (forall key, In (key, name) sec -> sf_key_index key = None) as H'
      by (intros; apply H; auto).
    apply IH in H'. discriminate.
  - destruct IH as [IH _]. specialize (IH eq_refl).
    destruct (String.eqb_spec name v) as [->|Hne].
    + split.
      * intros Hk key [[= -> ]|HI]; auto.
      * intros H. apply H. now left.
    + split; [|reflexivity]. intros _ key [[= _ E]|HI]; [congruence|auto].
Qed.

(** ** Ranges and loops *)

Lemma in_py_range_from (n : nat) (a k : Z) :
  In k (py_range_from n a) <-> (a <= k < a + Z.of_nat n)%Z.
Proof.
  revert a. induction n as [|n IH]; intros a; cbn [py_range_from In].
  - lia.
  - rewrite IH. lia.
Qed.

Lemma in_py_range (a b k : Z) : In k (py_range a b) <-> (a <= k < b)%Z.
Proof. unfold py_range. rewrite in_py_range_from. lia. Qed.

Lemma py_range_empty (a b : Z) : (b <= a)%Z -> py_range a b = [].
Proof.
  intros H. unfold py_range. replace (Z.to_nat (b - a)) with 0 by lia. reflexivity.
Qed.

Lemma for_each_fixed {S : Type} (idxs : list Z) (body : Z -> S -> result S) (s : S) :
  (forall idx, In idx idxs -> body idx s = Ok s) -> for_each idxs body s = Ok s.
Proof.
  induction idxs as [|idx rest IH]; simpl; [reflexivity|].
  intros H. rewrite (H idx (or_introl eq_refl)). simpl. apply IH. auto.
Qed.

(** ** Well-formed headers *)

Lemma nodupb_NoDup (l : list string) : nodupb l = true -> NoDup l.
Proof.
  induction l as [|x r IH]; simpl; [constructor|].
  intros H. apply andb_prop in H as [Hx Hr]. constructor; [|auto].
  intros HI. apply negb_true_iff in Hx.
  assert (existsb (String.eqb x) r = true) as E; [|congruence].
  apply existsb_exists. exists x. split; [assumption|apply String.eqb_refl].
Qed.

Section WfHeader.
Variables (n : nat) (sec : section).
Hypothesis Hwf : wf_header n sec = true.

Lemma wf_header_parts :
(exists s, od_get "SFCount" sec = Some s /\ s = PyStr.str (Z.of_nat n))
/\ nodupb (od_keys sec) = true
/\ forallb (fun key => negb (is_sf_key key)
                       || existsb (fun k => String.eqb key (SF k))
                            (py_range 1 (Z.of_nat n + 1)))
     (od_keys sec) = true
/\ forallb (fun k => od_mem (SF k) sec) (py_range 1 (Z.of_nat n + 1)) = true
/\ nodupb (sf_names sec) = true.
Proof.
unfold wf_header in Hwf.
repeat (apply andb_prop in Hwf as [Hwf ?]).
repeat split; try assumption.
destruct (od_get "SFCount" sec) as [s|]; [|discriminate].
exists s. split; [reflexivity|]. now apply String.eqb_eq.
Qed.

Lemma wf_header_count : od_get "SFCount" sec = Some (PyStr.str (Z.of_nat n)).
Proof. destruct wf_header_parts as ((s & H & ->) & _). exact H. Qed.

Lemma wf_header_nodup : NoDup (od_keys sec).
Proof. apply nodupb_NoDup. apply wf_header_parts. Qed.

Lemma wf_header_key (key : string) (i : Z) :
In key (od_keys sec) -> sf_key_index key = Some i ->
key = SF (i + 1) /\ (0 <= i < Z.of_nat n)%Z.
Proof.
intros HI Hk. destruct wf_header_parts as (_ & _ & H & _).
rewrite forallb_forall in H. specialize (H key HI).
unfold is_sf_key in H. rewrite Hk in H. simpl in H.
apply existsb_exists in H as (k & Hr & E).
apply in_py_range in Hr. apply String.eqb_eq in E. subst key.
rewrite sf_key_index_SF in Hk by lia. injection Hk as <-.
split; [f_equal; lia|lia].
Qed.

Lemma wf_header_present (k : Z) :
(1 <= k <= Z.of_nat n)%Z -> exists v, od_get (SF k) sec = Some v.
Proof.
intros Hk. destruct wf_header_parts as (_ & _ & _ & H & _).
rewrite forallb_forall in H. specialize (H k).
unfold od_mem in H. destruct (od_get (SF k) sec) as [v|]; [eauto|].
discriminate H. apply in_py_range. lia.
Qed.

Lemma wf_header_next_absent : od_get (SF (Z.of_nat n + 1)) sec = None.
Proof.
apply od_get_None. intros HI.
assert (0 <= Z.of_nat n + 1)%Z as Hn by lia.
destruct (wf_header_key _ _ HI (sf_key_index_SF _ Hn)). lia.
Qed.

Lemma wf_header_names : NoDup (sf_names sec).
Proof. apply nodupb_NoDup. apply wf_header_parts. Qed.
End WfHeader.

(** ** Columns of a matrix *)

Lemma remove_nth_snoc {A} (r : list A) (x : A) :
  remove_nth (length r) (r ++ [x]) = r.
Proof.
  unfold remove_nth.
  rewrite firstn_app, firstn_all, Nat.sub_diag.
  rewrite (skipn_all2 (n := S (length r))) by (rewrite length_app; simpl; lia).
  simpl. now rewrite !app_nil_r.
Qed.

Lemma delete_appended_column {A} (n : nat) (rows : list (list A)) (col : list A) :
  Forall (fun r => length r = n) rows ->
  length col = length rows ->
  map (remove_nth n) (map (fun rx => fst rx ++ [snd rx]) (combine rows col)) = rows.
Proof.
  intros Hrows. revert col. induction Hrows as [|r rows Hr _ IH]; intros col Hlen.
  - reflexivity.
  - destruct col as [|x col]; [discriminate|]. simpl.
    rewrite <- Hr at 1. rewrite remove_nth_snoc. f_equal. apply IH.
    simpl in Hlen. lia.
Qed.

(** ** Adding, removing and renaming a scalar field *)

(** What [add_sf] does to a well-formed document, whatever the name. *)
Lemma add_sf_wf {A} (name : string) (sf : matrix A) (config : ConfigParser)
  (sec : section) (col : list A) :
  od_get "SBF" config = Some sec ->
  wf_header (ncols sf) sec = true ->
  length col = nrows sf ->
  add_sf name sf config col
  = (od_set "SBF"
       (od_set "SFCount" (PyStr.str (Z.of_nat (ncols sf) + 1)) sec
        ++ [(SF (Z.of_nat (ncols sf) + 1), name)]) config,
     Ok (Matrix (nrows sf) (ncols sf + 1)
           (map (fun rx => fst rx ++ [snd rx]) (combine (mrows sf) col)))).
Proof.
  intros Hsec Hwf Hcol.
  pose proof (wf_header_count _ _ Hwf) as Hcount.
  pose proof (wf_header_next_absent _ _ Hwf) as Hnext.
  unfold add_sf, st_bind, st_read, st_pure, st_update.
  rewrite (sbf_get_eq _ _ _ Hsec), Hcount. simpl.
  rewrite py_int_str by lia.
  rewrite (sbf_set_eq _ _ _ _ Hsec).
  rewrite (sbf_set_eq _ _ _ _ (od_get_set_same _ _ _)).
  rewrite od_set_set.
  unfold np_c_. rewrite Hcol, Nat.eqb_refl.
  rewrite (od_set_absent _ _ _ Hnext).
  rewrite od_set_app_present by congruence.
  reflexivity.
Qed.

(** **** C7 *)


(** ** The invariant as a record *)

Lemma NoDup_nodupb (l : list string) : NoDup l -> nodupb l = true.
Proof.
  induction 1 as [|x r Hx _ IH]; simpl; [reflexivity|].
  rewrite IH, andb_true_r. apply negb_true_iff.
  destruct (existsb (String.eqb x) r) eqn:E; [|reflexivity].
  apply existsb_exists in E as (y & Hy & E). apply String.eqb_eq in E.
  subst y. contradiction.
Qed.

Lemma wf_header_WfHeader (n : nat) (sec : section) :
  wf_header n sec = true <-> WfHeader n sec.
Proof.
  split.
  - intros H. constructor.
    + exact (wf_header_count _ _ H).
    + exact (wf_header_nodup _ _ H).
    + exact (wf_header_key _ _ H).
    + intros k Hk. destruct (wf_header_present _ _ H k Hk) as (v & ->). discriminate.
    + exact (wf_header_names _ _ H).
  - intros [Hc Hn Hk Hp Hs]. unfold wf_header.
    rewrite Hc, String.eqb_refl, (NoDup_nodupb _ Hn), (NoDup_nodupb _ Hs).
    rewrite andb_true_r. simpl. apply andb_true_iff. split.
    + apply forallb_forall. intros key HI. unfold is_sf_key.
      destruct (sf_key_index key) as [i|] eqn:E; [|reflexivity]. simpl.
      destruct (Hk key i HI E) as [-> Hi].
      apply existsb_exists. exists (i + 1)%Z. split; [|apply String.eqb_refl].
      apply in_py_range. lia.
    + apply forallb_forall. intros k Hr. apply in_py_range in Hr.
      unfold od_mem. specialize (Hp k ltac:(lia)).
      now destruct (od_get (SF k) sec).
Qed.

Lemma NoDup_keys_get {V} (d : odict V) (k : string) (v : V) :
  NoDup (od_keys d) -> In (k, v) d -> od_get k d = Some v.
Proof.
  induction d as [|[k0 v0] d IH]; simpl; [tauto|].
  intros Hnd [[= -> ->]|HI].
  - now rewrite String.eqb_refl.
  - inversion Hnd as [|? ? Hk0 Hnd']; subst.
    destruct (String.eqb_spec k k0) as [->|]; [|auto].
    exfalso. apply Hk0. change k0 with (fst (k0, v)). now apply in_map.
Qed.

Lemma in_sf_names (name : string) (sec : section) :
  In name (sf_names sec) <->
  exists key, In (key, name) sec /\ is_sf_key key = true.
Proof.
  unfold sf_names. rewrite in_map_iff. split.
  - intros ([k v] & <- & HI). apply filter_In in HI as [HI Hk]. eauto.
  - intros (key & HI & Hk). exists (key, name). split; [reflexivity|].
    apply filter_In. auto.
Qed.

Lemma last_index_None_names (name : string) (sec : section) :
  last_index name sec = None <-> ~ In name (sf_names sec).
Proof.
  rewrite last_index_None, in_sf_names. unfold is_sf_key. split.
  - intros H (key & HI & Hk). rewrite (H key HI) in Hk. discriminate.
  - intros H key HI. destruct (sf_key_index key) eqn:E; [|reflexivity].
    exfalso. apply H. exists key. now rewrite E.
Qed.

Lemma NoDup_snd_inj {K V} (l : list (K * V)) (k k' : K) (v : V) :
  NoDup (map snd l) -> In (k, v) l -> In (k', v) l -> NoDup (map fst l) -> k = k'.
Proof.
  induction l as [|[k0 v0] l IH]; simpl; [tauto|].
  intros Hs H1 H2 Hf.
  inversion Hs as [|? ? Hv0 Hs']; inversion Hf as [|? ? Hk0 Hf']; subst.
  destruct H1 as [E1|H1], H2 as [E2|H2].
  - congruence.
  - injection E1 as -> ->. exfalso. apply Hv0. apply in_map_iff.
    exists (k', v). auto.
  - injection E2 as -> ->. exfalso. apply Hv0. apply in_map_iff.
    exists (k, v). auto.
  - auto.
Qed.

(** Under the invariant the index of a name is the number of its key. *)
Lemma WfHeader_last_index (n : nat) (sec : section) (name : string) (j : Z) :
  WfHeader n sec ->
  last_index name sec = Some j <->
  (0 <= j < Z.of_nat n)%Z /\ od_get (SF (j + 1)) sec = Some name.
Proof.
  intros [Hc Hn Hk Hp Hs].
  assert (forall i, last_index name sec = Some i ->
                    (0 <= i < Z.of_nat n)%Z /\ od_get (SF (i + 1)) sec = Some name) as Hfwd.
  { intros i H. apply last_index_Some in H as (key & HI & Hkey).
    assert (In key (od_keys sec)) as HIk
      by (change key with (fst (key, name)); now apply in_map).
    destruct (Hk key i HIk Hkey) as [-> Hi]. split; [assumption|].
    now apply NoDup_keys_get. }
  split; [apply Hfwd|].
  intros [Hj Hget].
  destruct (last_index name sec) as [i|] eqn:E.
  - destruct (Hfwd i eq_refl) as [Hi Hget']. f_equal.
    apply od_get_In in Hget, Hget'.
    assert (SF (i + 1) = SF (j + 1)) as HSF.
    { apply (NoDup_snd_inj (filter (fun kv => is_sf_key (fst kv)) sec) _ _ name).
      - exact Hs.
      - apply filter_In. split; [assumption|]. unfold is_sf_key. simpl.
        now rewrite sf_key_index_SF by lia.
      - apply filter_In. split; [assumption|]. unfold is_sf_key. simpl.
        now rewrite sf_key_index_SF by lia.
      - clear -Hn. unfold od_keys in Hn. induction sec as [|[k v] sec IH]; simpl.
        + constructor.
        + inversion Hn as [|? ? Hk Hn']; subst.
          destruct (is_sf_key k); simpl; [|auto]. constructor; [|auto].
          intros HI. apply Hk. apply in_map_iff in HI as (x & Hx & HI).
          apply filter_In in HI as [HI _]. apply in_map_iff. eauto. }
    apply SF_inj in HSF; lia.
  - exfalso. apply last_index_None_names in E. apply E. apply in_sf_names.
    exists (SF (j + 1)). split; [now apply od_get_In|].
    unfold is_sf_key. now rewrite sf_key_index_SF by lia.
Qed.

Lemma sf_names_set_incl (K b : string) (sec : section) (x : string) :
  In x (sf_names (od_set K b sec)) -> x = b \/ In x (sf_names sec).
Proof.
  unfold sf_names. induction sec as [|[k0 v0] sec IH]; simpl.
  - destruct (is_sf_key K); simpl; intuition auto.
  - destruct (String.eqb_spec K k0) as [->|Hne]; simpl;
      destruct (is_sf_key k0); simpl; intuition auto.
Qed.

Lemma sf_names_set_NoDup (K b : string) (sec : section) :
  od_get K sec <> None ->
  ~ In b (sf_names sec) -> NoDup (sf_names sec) ->
  NoDup (sf_names (od_set K b sec)).
Proof.
  induction sec as [|[k0 v0] sec IH]; simpl; [congruence|].
  intros Hget Hb Hnd. unfold sf_names in *. simpl in *.
  destruct (String.eqb_spec K k0) as [->|Hne]; simpl.
  - destruct (is_sf_key k0); simpl in *; [|assumption].
    inversion Hnd; subst. constructor; tauto.
  - destruct (is_sf_key k0) eqn:E; simpl in *.
    + inversion Hnd as [|? ? Hv0 Hnd']; subst. constructor.
      * intros HI. apply sf_names_set_incl in HI as [->|HI]; tauto.
      * apply IH; tauto.
    + apply IH; tauto.
Qed.

(** Renaming the field of a key keeps the invariant when the new name is
    not in use. *)
Lemma WfHeader_rename (n : nat) (sec : section) (k : Z) (b : string) :
  WfHeader n sec -> (1 <= k <= Z.of_nat n)%Z ->
  ~ In b (sf_names sec) ->
  WfHeader n (od_set (SF k) b sec).
Proof.
  intros [Hc Hn Hk Hp Hs] Hrange Hb.
  specialize (Hp k Hrange) as Hpk.
  constructor.
  - rewrite od_get_set. rewrite String.eqb_sym, SF_not_SFCount by lia. exact Hc.
  - now rewrite od_keys_set_present.
  - rewrite od_keys_set_present by assumption. exact Hk.
  - intros k' Hk'. rewrite od_get_set.
    destruct (String.eqb (SF k') (SF k)); [discriminate|auto].
  - now apply sf_names_set_NoDup.
Qed.

Lemma rename_sf_eq (a b : string) (config : ConfigParser) (sec : section) (i : Z) :
  od_get "SBF" config = Some sec ->
  last_index a sec = Some i ->
  rename_sf a b config = (od_set "SBF" (od_set (SF (i + 1)) b sec) config, Ok tt).
Proof.
  intros Hsec Hi.
  unfold rename_sf, st_bind, st_read, st_pure, st_update, get_name_index_dict, sbf_section.
  rewrite Hsec. cbn [of_option bind]. rewrite name_index_of_get, Hi. cbn [of_option].
  now rewrite (sbf_set_eq _ _ _ _ Hsec).
Qed.

(** **** C9 *)


(** **** C7, at the sample document *)


(** **** C9, at the sample document *)


(** **** C8 *)

Lemma nth_snoc {A} (d x : A) (r : list A) : nth (length r) (r ++ [x]) d = x.
Proof. rewrite app_nth2, Nat.sub_diag by lia. reflexivity. Qed.

Lemma appended_column {A} (d : A) (n : nat) (rows : list (list A)) (col : list A) :
  Forall (fun r => length r = n) rows ->
  length col = length rows ->
  map (fun r => nth n r d) (map (fun rx => fst rx ++ [snd rx]) (combine rows col)) = col
  /\ map (firstn n) (map (fun rx => fst rx ++ [snd rx]) (combine rows col)) = rows.
Proof.
  intros Hrows. revert col. induction Hrows as [|r rows Hr _ IH]; intros col Hlen.
  - destruct col; [split; reflexivity|discriminate].
  - destruct col as [|x col]; [discriminate|]. simpl.
    destruct (IH col ltac:(simpl in Hlen; lia)) as [-> ->].
    rewrite <- Hr. rewrite nth_snoc, firstn_app, firstn_all, Nat.sub_diag.
    simpl. now rewrite app_nil_r.
Qed.




(** ** Bytes *)

Lemma to_N_byte_of_N (n : N) : Byte.to_N (byte_of_N n) = (n mod 256)%N.
Proof.
  unfold byte_of_N.
  pose proof (Byte.to_of_N_option_map (n mod 256)) as H.
  assert (n mod 256 < 256)%N as Hlt by (apply N.mod_lt; discriminate).
  replace (N.leb (n mod 256) 255) with true in H
    by (symmetry; apply N.leb_le; lia).
  destruct (Byte.of_N (n mod 256)); simpl in H; congruence.
Qed.

Lemma length_be_encode (k : nat) (n : N) : length (be_encode k n) = k.
Proof.
  revert n. induction k as [|k IH]; intros n; simpl; [reflexivity|].
  rewrite length_app, IH. simpl. lia.
Qed.

Lemma be_decode_snoc (l : list byte) (b : byte) :
  be_decode (l ++ [b]) = (be_decode l * 256 + Byte.to_N b)%N.
Proof. unfold be_decode. now rewrite fold_left_app. Qed.

Lemma be_decode_encode (k : nat) (n : N) :
  (n < 256 ^ N.of_nat k)%N -> be_decode (be_encode k n) = n.
Proof.
  revert n. induction k as [|k IH]; intros n Hn.
  - simpl in *. unfold be_decode. simpl. lia.
  - cbn [be_encode]. rewrite be_decode_snoc, to_N_byte_of_N, IH.
    + rewrite N.mul_comm. symmetry. apply N.div_mod. discriminate.
    + apply N.Div0.div_lt_upper_bound.
      rewrite Nat2N.inj_succ, N.pow_succ_r' in Hn. lia.
Qed.

Lemma pack_unpack_uint (k : nat) (n : N) (l : list byte) :
  pack_uint k n = Ok l -> unpack_uint k l = Ok n.
Proof.
  unfold pack_uint, unpack_uint. destruct (N.ltb_spec n (256 ^ N.of_nat k)) as [H|H].
  - intros [= <-]. now rewrite length_be_encode, Nat.eqb_refl, be_decode_encode.
  - discriminate.
Qed.

Lemma unpack_pack_d (x : f64) : unpack_d (pack_d x) = Ok x.
Proof. now destruct x. Qed.

Lemma unpack_d_length (l : list byte) :
  length l = 8 -> exists x, unpack_d l = Ok x /\ pack_d x = l.
Proof.
  intros H.
  do 8 (destruct l as [|? l]; [discriminate|]).
  destruct l; [|discriminate]. eexists. split; reflexivity.
Qed.

Lemma length_slice {A} (a b : nat) (l : list A) :
  b <= length l -> length (slice a b l) = b - a.
Proof. intros H. unfold slice. rewrite length_firstn, length_skipn. lia. Qed.

Lemma np_fromfile_f_tobytes (l : list f32) : np_fromfile_f (flat_map pack_f l) = l.
Proof.
  induction l as [|[b0 b1 b2 b3] l IH]; [reflexivity|].
  simpl. now rewrite IH.
Qed.

Lemma length_np_fromfile_f (l : list byte) :
  length (np_fromfile_f l) = length l / 4.
Proof.
  remember (length l) as n eqn:Hn. revert l Hn.
  induction n as [n IH] using (well_founded_induction Wf_nat.lt_wf).
  intros l Hn.
  destruct l as [|b0 [|b1 [|b2 [|b3 r]]]]; simpl in Hn; subst n;
    try reflexivity.
  cbn [np_fromfile_f length].
  rewrite (IH (length r)) by (simpl; lia || reflexivity).
  change (S (S (S (S (length r))))) with (4 + length r).
  replace (4 + length r) with (length r + 1 * 4) by lia.
  rewrite Nat.div_add by discriminate. lia.
Qed.

(** ** Rows of a flat list *)

Lemma chunks_concat {A} (c : nat) (rows : list (list A)) :
  Forall (fun r => length r = c) rows ->
  chunks (length rows) c (concat rows) = rows.
Proof.
  induction 1 as [|r rows Hr _ IH]; [reflexivity|].
  simpl. rewrite <- Hr.
  rewrite firstn_app, firstn_all, Nat.sub_diag, skipn_app, skipn_all, Nat.sub_diag.
  simpl. rewrite app_nil_r. f_equal. rewrite Hr. exact IH.
Qed.

Lemma length_concat_uniform {A} (c : nat) (rows : list (list A)) :
  Forall (fun r => length r = c) rows -> length (concat rows) = length rows * c.
Proof.
  induction 1 as [|r rows Hr _ IH]; [reflexivity|].
  simpl. rewrite length_app, IH, Hr. reflexivity.
Qed.

Lemma length_chunks {A} (n c : nat) (l : list A) : length (chunks n c l) = n.
Proof. revert l. induction n; intros l; simpl; [|rewrite IHn]; reflexivity. Qed.

Lemma chunks_uniform {A} (n c : nat) (l : list A) :
  length l = n * c -> Forall (fun r => length r = c) (chunks n c l).
Proof.
  revert l. induction n as [|n IH]; intros l Hl; simpl; constructor.
  - rewrite length_firstn. simpl in Hl. lia.
  - apply IH. rewrite length_skipn. simpl in Hl. lia.
Qed.

(** ** Reading *)

Section Reading.
Variable py_eval : string -> option (list f64).

Lemma iadd_row_same_length (m : matrix f64) (v : list f64) :
length v = ncols m ->
iadd_row m v
= Ok (Matrix (nrows m) (ncols m) (map (fun r => zip_with IEEE.add r v) (mrows m))).
Proof.
intros H. unfold iadd_row, broadcast_row. now rewrite H, Nat.eqb_refl.
Qed.

Lemma iadd_row_shape (m m' : matrix f64) (v : list f64) :
iadd_row m v = Ok m' -> nrows m' = nrows m /\ ncols m' = ncols m.
Proof.
unfold iadd_row. destruct (broadcast_row (ncols m) v); simpl; [|discriminate].
intros [= <-]. split; reflexivity.
Qed.

Lemma shift_array_eq (array : matrix f32) (shift : list f64)
(config : option ConfigParser) :
shift_array py_eval array shift config
= (newArray <- iadd_row (matrix_map IEEE.widen array) shift ;;
   Ok (apply_global_shift (header_global_shift py_eval config) newArray)).
Proof.
unfold shift_array, apply_global_shift, header_global_shift.
destruct (iadd_row (matrix_map IEEE.widen array) shift) as [newArray|e];
  [|reflexivity].
cbn [bind]. destruct config as [config|]; [|reflexivity].
destruct (sbf_get "GlobalShift" config) as [s|e]; [|reflexivity].
cbn [bind]. destruct (py_eval s) as [g|]; [|reflexivity].
cbn [of_option bind]. now destruct (iadd_row newArray g).
Qed.

(** The coordinates before the global shift: the three first numbers of
  each row, widened, plus the shift of the preamble. *)
Lemma read_sbf_wf (sbf : ConfigParser) (sbf_data : list byte) :
wf_payload sbf_data = true ->
exists shift,
  payload_shift sbf_data = Ok shift
  /\ length shift = 3
  /\ read_sbf py_eval sbf sbf_data
     = Ok (apply_global_shift (header_global_shift py_eval (read_sbf_header sbf))
             (Matrix (N.to_nat (payload_Np sbf_data)) 3
                (map (fun r => zip_with IEEE.add (map IEEE.widen (firstn 3 r)) shift)
                   (payload_rows sbf_data))),
           (if (payload_Ns sbf_data =? 0)%N then None
            else Some (Matrix (N.to_nat (payload_Np sbf_data))
                         (N.to_nat (payload_Ns sbf_data))
                         (map (skipn 3) (payload_rows sbf_data)))),
           read_sbf_header sbf).
Proof.
intros Hwf. unfold wf_payload in Hwf.
apply andb_prop in Hwf as [Hlen Hcount].
apply Nat.leb_le in Hlen. apply N.eqb_eq in Hcount.
assert (length (firstn 64 sbf_data) = 64) as H64
  by (rewrite length_firstn; lia).
destruct (unpack_d_length (slice 12 20 (firstn 64 sbf_data))) as (x & Hx & _);
  [rewrite length_slice; lia|].
destruct (unpack_d_length (slice 20 28 (firstn 64 sbf_data))) as (y & Hy & _);
  [rewrite length_slice; lia|].
destruct (unpack_d_length (slice 28 36 (firstn 64 sbf_data))) as (z & Hz & _);
  [rewrite length_slice; lia|].
exists [x; y; z]. split; [|split; [reflexivity|]].
{ unfold payload_shift. now rewrite Hx, Hy, Hz. }
unfold read_sbf, unpack_uint. cbv zeta.
rewrite (length_slice 2 10 (firstn 64 sbf_data)) by lia.
rewrite (length_slice 10 12 (firstn 64 sbf_data)) by lia.
cbn [Nat.sub Nat.eqb bind].
rewrite Hx, Hy, Hz. cbn [bind].
fold (payload_Np sbf_data) (payload_Ns sbf_data).
unfold np_reshape.
rewrite length_np_fromfile_f, length_skipn, Hcount, N.eqb_refl. cbn [bind].
fold (payload_rows sbf_data).
rewrite shift_array_eq.
rewrite iadd_row_same_length
  by (cbn [ncols cols_to matrix_map length]; lia).
cbn [bind nrows ncols mrows cols_to matrix_map cols_from].
replace (Nat.min 3 (N.to_nat (payload_Ns sbf_data + 3))) with 3 by lia.
assert (N.to_nat (payload_Ns sbf_data + 3) - 3 = N.to_nat (payload_Ns sbf_data))
  as Hsub by lia.
rewrite !map_map.
destruct (payload_Ns sbf_data =? 0)%N;
  cbn [negb]; unfold cols_from; cbn [nrows ncols mrows]; rewrite ?Hsub;
  reflexivity.
Qed.

Lemma apply_global_shift_shape (g : option (list f64)) (m : matrix f64) :
nrows (apply_global_shift g m) = nrows m
/\ ncols (apply_global_shift g m) = ncols m.
Proof.
unfold apply_global_shift. destruct g as [g|]; [|split; reflexivity].
destruct (iadd_row m g) as [m'|] eqn:E; [|split; reflexivity].
now apply iadd_row_shape in E.
Qed.

End Reading.

(** ** What reading checks, and what it does not *)

Lemma read_sbf_header_present (sbf : ConfigParser) (sec : section) :
  od_get "SBF" sbf = Some sec -> read_sbf_header sbf = Some sbf.
Proof. intros H. unfold read_sbf_header, od_mem. now rewrite H. Qed.

Lemma read_sbf_bad_count (py_eval : string -> option (list f64))
  (sbf : ConfigParser) (sbf_data : list byte) :
  64 <= length sbf_data ->
  wf_payload sbf_data = false ->
  read_sbf py_eval sbf sbf_data = Raise ValueError.
Proof.
  intros Hlen Hwf. unfold wf_payload in Hwf.
  replace (Nat.leb 64 (length sbf_data)) with true in Hwf
    by (symmetry; now apply Nat.leb_le).
  cbn [andb] in Hwf.
  assert (length (firstn 64 sbf_data) = 64) as H64
    by (rewrite length_firstn; lia).
  destruct (unpack_d_length (slice 12 20 (firstn 64 sbf_data))) as (x & Hx & _);
    [rewrite length_slice; lia|].
  destruct (unpack_d_length (slice 20 28 (firstn 64 sbf_data))) as (y & Hy & _);
    [rewrite length_slice; lia|].
  destruct (unpack_d_length (slice 28 36 (firstn 64 sbf_data))) as (z & Hz & _);
    [rewrite length_slice; lia|].
  unfold read_sbf, unpack_uint. cbv zeta.
  rewrite (length_slice 2 10 (firstn 64 sbf_data)) by lia.
  rewrite (length_slice 10 12 (firstn 64 sbf_data)) by lia.
  cbn [Nat.sub Nat.eqb bind].
  rewrite Hx, Hy, Hz. cbn [bind].
  fold (payload_Np sbf_data) (payload_Ns sbf_data).
  unfold np_reshape.
  now rewrite length_np_fromfile_f, length_skipn, Hwf.
Qed.

(** **** C10 *)



(** **** C2 *)

(** C2, as the code has it.  The counts [Np] and [Ns] come from the
    preamble alone and the header's [Points] and [SFCount] are never
    compared with them: whatever these two keys hold, a payload with a whole
    preamble is read with success exactly when it holds the numbers its own
    preamble declares, with the same points and scalar fields, [Np] rows of
    them; the failure otherwise is the ValueError of [reshape]. *)
Theorem read_sbf_ignores_declared_counts (py_eval : string -> option (list f64))
  (sbf : ConfigParser) (sec : section) (sbf_data : list byte)
  (points sfcount : string) :
  od_get "SBF" sbf = Some sec ->
  64 <= length sbf_data ->
  let sbf' := od_set "SBF" (od_set "Points" points (od_set "SFCount" sfcount sec)) sbf in
  (wf_payload sbf_data = true ->
   exists pc sf,
     read_sbf py_eval sbf' sbf_data = Ok (pc, sf, Some sbf')
     /\ read_sbf py_eval sbf sbf_data = Ok (pc, sf, Some sbf)
     /\ nrows pc = N.to_nat (payload_Np sbf_data))
  /\ (wf_payload sbf_data = false ->
      read_sbf py_eval sbf' sbf_data = Raise ValueError).
Proof.
  intros Hsec Hlen sbf'. split.
  - intros Hwf.
    assert (od_get "SBF" sbf' = Some (od_set "Points" points (od_set "SFCount" sfcount sec)))
      as Hsec' by apply od_get_set_same.
    destruct (read_sbf_wf py_eval sbf' sbf_data Hwf) as (shift & Hshift & _ & ->).
    destruct (read_sbf_wf py_eval sbf sbf_data Hwf) as (shift' & Hshift' & _ & ->).
    assert (shift' = shift) as -> by congruence.
    rewrite (read_sbf_header_present _ _ Hsec), (read_sbf_header_present _ _ Hsec').
    assert (header_global_shift py_eval (Some sbf')
            = header_global_shift py_eval (Some sbf)) as ->.
    { unfold header_global_shift.
      rewrite (sbf_get_eq _ _ _ Hsec), (sbf_get_eq _ _ _ Hsec').
      now rewrite !od_get_set. }
    eexists _, _. repeat split.
    match goal with
    | |- context [apply_global_shift ?g ?m] =>
        destruct (apply_global_shift_shape g m) as [-> _]
    end.
    reflexivity.
  - now apply read_sbf_bad_count.
Qed.

Lemma read_sbf_ignores_declared_counts_sample :
  let sbf' := od_set "SBF"
                (od_set "Points" "100"
                   (od_set "SFCount" "7"
                      [("Points", "2"); ("SFCount", "2");
                       ("GlobalShift", "0., 0., 0."); ("SF1", "a"); ("SF2", "b")]))
                Sample.header in
  (wf_payload Sample.payload = true ->
   exists pc sf,
     read_sbf Sample.eval sbf' Sample.payload = Ok (pc, sf, Some sbf')
     /\ read_sbf Sample.eval Sample.header Sample.payload
        = Ok (pc, sf, Some Sample.header)
     /\ nrows pc = N.to_nat (payload_Np Sample.payload))
  /\ (wf_payload Sample.payload = false ->
      read_sbf Sample.eval sbf' Sample.payload = Raise ValueError).
Proof.
  apply (read_sbf_ignores_declared_counts Sample.eval Sample.header
           [("Points", "2"); ("SFCount", "2");
            ("GlobalShift", "0., 0., 0."); ("SF1", "a"); ("SF2", "b")]
           Sample.payload "100" "7").
  - reflexivity.
  - apply Nat.leb_le. reflexivity.
Defined.

(** C2 as stated fails on the code: a header that declares 100 points,
    opened with a payload of 99 rows, is read with success as 99 points. *)
Lemma read_sbf_accepts_mismatch :
  sbf_get "Points" Sample.header100 = Ok "100"
  /\ payload_Np Sample.payload99 = 99%N
  /\ read_sbf Sample.eval Sample.header100 Sample.payload99
     = Ok (Matrix 99 3 (repeat [Sample.num 0; Sample.num 0; Sample.num 0] 99),
           None, Some Sample.header100).
Proof. repeat split; vm_compute; reflexivity. Qed.

(** **** C1 *)

Lemma iadd_row_unbroadcastable (m : matrix f64) (g : list f64) :
  length g <> ncols m -> length g <> 1 -> iadd_row m g = Raise ValueError.
Proof.
  intros Hc H1. unfold iadd_row, broadcast_row.
  apply Nat.eqb_neq in Hc. rewrite Hc.
  destruct g as [|x [|y g]]; try reflexivity. now elim H1.
Qed.




(** **** C6 *)




(** ** Writing *)

Lemma length_zip_with {A B C} (f : A -> B -> C) (l : list A) (l' : list B) :
  length (zip_with f l l') = Nat.min (length l) (length l').
Proof. unfold zip_with. now rewrite length_map, length_combine. Qed.

Lemma combine_repeat_l {A B} (x : A) (l : list B) :
  combine (repeat x (length l)) l = map (fun y => (x, y)) l.
Proof. induction l as [|y l IH]; simpl; [reflexivity|now rewrite IH]. Qed.

Lemma zip_with_map_l {A A' B C} (f : A' -> B -> C) (h : A -> A')
  (l : list A) (l' : list B) :
  zip_with f (map h l) l' = zip_with (fun x y => f (h x) y) l l'.
Proof.
  unfold zip_with. revert l'. induction l as [|x l IH]; intros [|y l']; simpl;
    try reflexivity. now rewrite IH.
Qed.

Lemma zip_with_ext_in {A B C} (f f' : A -> B -> C) (l : list A) (l' : list B) :
  (forall x y, In x l -> In y l' -> f x y = f' x y) ->
  zip_with f l l' = zip_with f' l l'.
Proof.
  unfold zip_with. revert l'. induction l as [|x l IH]; intros [|y l'] H; simpl;
    try reflexivity.
  rewrite H by (now left). f_equal. apply IH. intros; apply H; now right.
Qed.

Lemma length_np_mean0 (m : matrix f64) : length (np_mean0 m) = ncols m.
Proof. unfold np_mean0. now rewrite length_map, length_seq. Qed.

Lemma skipn_repeat {A} (x : A) (k n : nat) : skipn k (repeat x (k + n)) = repeat x n.
Proof. induction k as [|k IH]; simpl; auto. Qed.

(** [a[:, :3] = x] on the array of zeros *)
Lemma assign_coordinates (n s : nat) (x : matrix f32) :
  nrows x = n -> ncols x = 3 -> length (mrows x) = n ->
  assign_cols 0 3 (np_zeros n (s + 3)) x
  = Ok (Matrix n (s + 3) (map (fun r => r ++ repeat IEEE.zero32 s) (mrows x))).
Proof.
  intros Hn Hc Hl. unfold assign_cols, broadcast_to, np_zeros.
  cbn [nrows ncols mrows]. rewrite Hn, Hc, Nat.eqb_refl. cbn [bind Nat.sub Nat.eqb].
  f_equal. f_equal. unfold zip_with. rewrite <- Hl, combine_repeat_l, map_map.
  apply map_ext. intros r. cbn [fst snd firstn app].
  replace (s + 3) with (3 + s) by lia. now rewrite skipn_repeat.
Qed.

(** [a[:, 3:] = y] after the coordinates *)
Lemma assign_fields (n s : nat) (xs ys : list (list f32)) :
  length xs = n -> length ys = n ->
  Forall (fun r => length r = 3) xs ->
  Forall (fun r => length r = s) ys ->
  assign_cols 3 (s + 3)
    (Matrix n (s + 3) (map (fun r => r ++ repeat IEEE.zero32 s) xs))
    (Matrix n s ys)
  = Ok (Matrix n (s + 3) (zip_with (@app f32) xs ys)).
Proof.
  intros Hx Hy Hxs Hys. unfold assign_cols, broadcast_to.
  cbn [nrows ncols mrows]. rewrite Nat.eqb_refl.
  replace (s + 3 - 3) with s by lia. rewrite Nat.eqb_refl. cbn [bind].
  f_equal. f_equal. rewrite zip_with_map_l.
  apply zip_with_ext_in. intros x y Hix Hiy.
  rewrite Forall_forall in Hxs. specialize (Hxs x Hix).
  rewrite <- Hxs at 1. rewrite firstn_app, firstn_all, Nat.sub_diag.
  cbn [firstn]. rewrite app_nil_r.
  rewrite skipn_all2 by (rewrite length_app, repeat_length; lia).
  now rewrite app_nil_r.
Qed.

Lemma zip_with_app_nil {A} (xs : list (list A)) :
  zip_with (@app A) xs (repeat [] (length xs)) = xs.
Proof.
  unfold zip_with. induction xs as [|x xs IH]; simpl; [reflexivity|].
  now rewrite IH, app_nil_r.
Qed.

Lemma zip_with_app_nils {A} (xs ys : list (list A)) :
  length ys = length xs -> Forall (fun r => length r = 0) ys ->
  zip_with (@app A) xs ys = xs.
Proof.
  intros Hl Hys. replace ys with (repeat (@nil A) (length xs)).
  - apply zip_with_app_nil.
  - rewrite <- Hl. clear Hl. induction Hys as [|y ys Hy _ IH]; simpl; [reflexivity|].
    destruct y; [|discriminate]. now rewrite IH.
Qed.

Section Writing.
Variable py_eval : string -> option (list f64).

Lemma stored_coordinates_shape (pc : matrix f64) (g : list f64) :
wf_matrix pc -> ncols pc = 3 -> length g = 3 ->
length (stored_coordinates pc g) = nrows pc
/\ Forall (fun r => length r = 3) (stored_coordinates pc g).
Proof.
intros [Hrows Hcols] Hc Hg. unfold stored_coordinates. cbn [mrows without_global_shift].
split.
- now rewrite !length_map.
- rewrite map_map. apply Forall_map. eapply Forall_impl; [|exact Hcols].
  intros r Hr. cbv beta in *.
  rewrite length_map, !length_zip_with. unfold local_shift.
  rewrite length_np_mean0. cbn [ncols without_global_shift]. cbv beta in Hr. lia.
Qed.

Lemma sub_row_triple (pc : matrix f64) (g : list f64) :
ncols pc = 3 -> length g = 3 -> sub_row pc g = Ok (without_global_shift pc g).
Proof.
intros Hc Hg. unfold sub_row, broadcast_row, without_global_shift.
now rewrite Hc, Hg.
Qed.

(** What a plain call of [write_sbf] (no index, no normals) writes for a
  document whose header holds a global shift of three numbers. *)
Lemma write_sbf_plain (pc : matrix f64) (sf : option (matrix f64))
(config : ConfigParser) (sec : section) (s : string) (g : list f64) :
wf_matrix pc -> ncols pc = 3 ->
wf_scalar_fields (nrows pc) sf ->
od_get "SBF" config = Some sec ->
od_get "GlobalShift" sec = Some s ->
py_eval s = Some g -> length g = 3 ->
(N.of_nat (nrows pc) < 2 ^ 64)%N ->
(N.of_nat (sf_count sf) < 2 ^ 16)%N ->
exists x y z,
  local_shift pc g = [x; y; z]
  /\ write_sbf py_eval pc sf (Some config) false None
     = Ok (od_set "SBF"
             (od_set "SFCount" (PyStr.str (Z.of_nat (sf_count sf)))
                (od_set "Points" (PyStr.str (Z.of_nat (nrows pc))) sec)) config,
           preamble (N.of_nat (nrows pc)) (N.of_nat (sf_count sf)) x y z
           ++ flat_map pack_f
                (concat (zip_with (@app f32) (stored_coordinates pc g)
                           (stored_fields (nrows pc) sf)))).
Proof.
intros Hpc Hc Hsf Hsec Hgs Hev Hg HN HS.
destruct (stored_coordinates_shape pc g Hpc Hc Hg) as [Hlen Hthree].
destruct Hpc as [Hrows Hcols].
assert (length (local_shift pc g) = 3) as Hshift
  by (unfold local_shift; rewrite length_np_mean0; exact Hc).
destruct (local_shift pc g) as [|x [|y [|z [|? ?]]]] eqn:Els; try discriminate.
exists x, y, z. split; [reflexivity|].
unfold write_sbf. fold (sf_count sf).
cbn [bind].
rewrite (sbf_set_eq _ _ _ _ Hsec). cbn [bind].
rewrite (sbf_set_eq _ _ _ _ (od_get_set_same _ _ _)), od_set_set. cbn [bind].
rewrite (sbf_get_eq _ _ _ (od_get_set_same _ _ _)).
rewrite !od_get_set. cbn [String.eqb Ascii.eqb Bool.eqb]. rewrite Hgs.
cbn [of_option bind]. rewrite Hev. cbn [of_option bind].
rewrite (sub_row_triple pc g Hc Hg). cbn [bind].
fold (local_shift pc g). rewrite Els.
rewrite assign_coordinates;
  [|reflexivity|exact Hc|cbn [mrows matrix_map sub_vec without_global_shift];
                         now rewrite !length_map].
cbn [bind].
assert (mrows (matrix_map IEEE.narrow
                 (sub_vec (without_global_shift pc g) [x; y; z]))
        = stored_coordinates pc g) as ->.
{ unfold stored_coordinates. rewrite Els.
  cbn [mrows matrix_map sub_vec without_global_shift]. now rewrite map_map. }
assert (forall a : matrix f32,
           a = Matrix (nrows pc) (sf_count sf + 3)
                 (zip_with (@app f32) (stored_coordinates pc g)
                    (stored_fields (nrows pc) sf)) ->
           (a' <- Ok a ;;
            Np <- pack_uint 8 (N.of_nat (nrows pc)) ;;
            Ns <- pack_uint 2 (N.of_nat (sf_count sf)) ;;
            shift0 <- of_option IndexError (nth_error [x; y; z] 0) ;;
            shift1 <- of_option IndexError (nth_error [x; y; z] 1) ;;
            shift2 <- of_option IndexError (nth_error [x; y; z] 2) ;;
            Ok (od_set "SBF"
                  (od_set "SFCount" (PyStr.str (Z.of_nat (sf_count sf)))
                     (od_set "Points" (PyStr.str (Z.of_nat (nrows pc))) sec)) config,
                [x2a; x2a] ++ Np ++ Ns ++ pack_d shift0 ++ pack_d shift1
                ++ pack_d shift2 ++ repeat x00 (63 - 36 + 1) ++ tobytes a'))
           = Ok (od_set "SBF"
                   (od_set "SFCount" (PyStr.str (Z.of_nat (sf_count sf)))
                      (od_set "Points" (PyStr.str (Z.of_nat (nrows pc))) sec)) config,
                 preamble (N.of_nat (nrows pc)) (N.of_nat (sf_count sf)) x y z
                 ++ flat_map pack_f
                      (concat (zip_with (@app f32) (stored_coordinates pc g)
                                 (stored_fields (nrows pc) sf))))) as Hend.
{ intros a ->. cbn [bind]. unfold pack_uint.
  change (256 ^ N.of_nat 8)%N with (2 ^ 64)%N.
  change (256 ^ N.of_nat 2)%N with (2 ^ 16)%N.
  apply N.ltb_lt in HN, HS. rewrite HN, HS.
  cbn [bind nth_error of_option]. unfold preamble, tobytes. cbn [mrows].
  f_equal. f_equal. cbn [Nat.sub Nat.add]. now rewrite <- !app_assoc. }
destruct (Nat.eqb (sf_count sf) 0) eqn:E0; cbn [negb].
- apply Nat.eqb_eq in E0. cbn [bind]. apply Hend. rewrite E0 in *.
  f_equal.
  assert (zip_with (@app f32) (stored_coordinates pc g) (stored_fields (nrows pc) sf)
          = stored_coordinates pc g) as ->.
  { destruct sf as [m|]; cbn [stored_fields].
    - destruct Hsf as [[Hmr Hmc] Hmn]. cbn [sf_count] in E0.
      apply zip_with_app_nils.
      + rewrite length_map. congruence.
      + apply Forall_map. eapply Forall_impl; [|exact Hmc].
        intros r Hr. cbv beta. rewrite length_map. congruence.
    - rewrite <- Hlen. apply zip_with_app_nil. }
  cbn [Nat.add repeat]. rewrite <- (map_id (stored_coordinates pc g)) at 2.
  apply map_ext. intros r. apply app_nil_r.
- destruct sf as [m|]; [|discriminate]. cbn [sf_count] in *.
  destruct Hsf as [[Hmr Hmc] Hmn].
  assert (matrix_map IEEE.narrow m
          = Matrix (nrows pc) (ncols m) (map (map IEEE.narrow) (mrows m))) as ->
    by (unfold matrix_map; now rewrite Hmn).
  rewrite assign_fields.
  + apply Hend. reflexivity.
  + exact Hlen.
  + rewrite length_map. congruence.
  + exact Hthree.
  + apply Forall_map. eapply Forall_impl; [|exact Hmc].
    intros r Hr. cbv beta. now rewrite length_map.
Qed.

End Writing.

(** ** The preamble read back *)

Lemma be_encode_8 (n : N) :
  exists b0 b1 b2 b3 b4 b5 b6 b7, be_encode 8 n = [b0; b1; b2; b3; b4; b5; b6; b7].
Proof.
  pose proof (length_be_encode 8 n) as H.
  destruct (be_encode 8 n) as [|b0 [|b1 [|b2 [|b3 [|b4 [|b5 [|b6 [|b7 [|? ?]]]]]]]]];
    try discriminate.
  repeat eexists.
Qed.

Lemma be_encode_2 (n : N) : exists b0 b1, be_encode 2 n = [b0; b1].
Proof.
  pose proof (length_be_encode 2 n) as H.
  destruct (be_encode 2 n) as [|b0 [|b1 [|? ?]]]; try discriminate.
  repeat eexists.
Qed.

Lemma preamble_fields (Np Ns : N) (x y z : f64) (body : list byte) :
  (Np < 2 ^ 64)%N -> (Ns < 2 ^ 16)%N ->
  payload_Np (preamble Np Ns x y z ++ body) = Np
  /\ payload_Ns (preamble Np Ns x y z ++ body) = Ns
  /\ payload_shift (preamble Np Ns x y z ++ body) = Ok [x; y; z]
  /\ skipn 64 (preamble Np Ns x y z ++ body) = body
  /\ length (preamble Np Ns x y z ++ body) = 64 + length body.
Proof.
  intros HNp HNs.
  pose proof (be_decode_encode 8 Np HNp) as Hq.
  pose proof (be_decode_encode 2 Ns HNs) as Hh.
  destruct (be_encode_8 Np) as (q0 & q1 & q2 & q3 & q4 & q5 & q6 & q7 & Eq).
  destruct (be_encode_2 Ns) as (h0 & h1 & Eh).
  unfold preamble, payload_Np, payload_Ns, payload_shift.
  rewrite Eq, Eh in *. destruct x, y, z.
  cbn [pack_d repeat app firstn skipn slice Nat.sub unpack_d bind length].
  repeat split; assumption || reflexivity.
Qed.

Lemma payload_rows_written (Np Ns : nat) (x y z : f64) (rows : list (list f32)) :
  (N.of_nat Np < 2 ^ 64)%N -> (N.of_nat Ns < 2 ^ 16)%N ->
  length rows = Np ->
  Forall (fun r => length r = Ns + 3) rows ->
  let sbf_data := preamble (N.of_nat Np) (N.of_nat Ns) x y z
                  ++ flat_map pack_f (concat rows) in
  wf_payload sbf_data = true
  /\ payload_Np sbf_data = N.of_nat Np
  /\ payload_Ns sbf_data = N.of_nat Ns
  /\ payload_shift sbf_data = Ok [x; y; z]
  /\ payload_rows sbf_data = rows.
Proof.
  intros HNp HNs Hlen Hrows sbf_data.
  destruct (preamble_fields (N.of_nat Np) (N.of_nat Ns) x y z
              (flat_map pack_f (concat rows)) HNp HNs)
    as (ENp & ENs & Eshift & Eskip & Elen).
  fold sbf_data in ENp, ENs, Eshift, Eskip, Elen.
  assert (length (flat_map pack_f (concat rows)) / 4 = Np * (Ns + 3)) as Hcount.
  { rewrite <- length_np_fromfile_f, np_fromfile_f_tobytes.
    rewrite (length_concat_uniform _ _ Hrows). now rewrite Hlen. }
  repeat split.
  - unfold wf_payload. rewrite ENp, ENs, Elen.
    replace (Nat.leb 64 (64 + length (flat_map pack_f (concat rows)))) with true
      by (symmetry; apply Nat.leb_le; lia).
    cbn [andb]. apply N.eqb_eq.
    replace (64 + length (flat_map pack_f (concat rows)) - 64)
      with (length (flat_map pack_f (concat rows))) by lia.
    rewrite Hcount. lia.
  - exact ENp.
  - exact ENs.
  - exact Eshift.
  - unfold payload_rows. rewrite ENp, ENs, Eskip, np_fromfile_f_tobytes.
    replace (N.to_nat (N.of_nat Ns + 3)) with (Ns + 3) by lia.
    rewrite Nat2N.id, <- Hlen. now apply chunks_concat.
Qed.

(** ** Writing, then reading *)

Lemma rows_of_written {A} (s : nat) (xs ys : list (list A)) :
  length ys = length xs ->
  Forall (fun r => length r = 3) xs ->
  Forall (fun r => length r = s) ys ->
  length (zip_with (@app A) xs ys) = length xs
  /\ Forall (fun r => length r = s + 3) (zip_with (@app A) xs ys)
  /\ map (firstn 3) (zip_with (@app A) xs ys) = xs
  /\ map (skipn 3) (zip_with (@app A) xs ys) = ys.
Proof.
  intros Hl Hxs. revert ys Hl. unfold zip_with.
  induction Hxs as [|x xs Hx _ IH]; intros ys Hl Hys.
  - destruct ys; [|discriminate]. repeat split; constructor.
  - destruct ys as [|y ys]; [discriminate|].
    inversion Hys as [|? ? Hy Hys']; subst.
    destruct (IH ys ltac:(simpl in Hl; lia) Hys') as (H1 & H2 & H3 & H4).
    cbn [combine map fst snd length]. repeat split.
    + now rewrite H1.
    + constructor; [rewrite length_app; lia|exact H2].
    + rewrite H3. f_equal. rewrite <- Hx.
      rewrite firstn_app, firstn_all, Nat.sub_diag. cbn [firstn]. apply app_nil_r.
    + rewrite H4. f_equal. rewrite <- Hx.
      rewrite skipn_app, skipn_all, Nat.sub_diag. reflexivity.
Qed.

Lemma stored_fields_shape (n : nat) (sf : option (matrix f64)) :
  wf_scalar_fields n sf ->
  length (stored_fields n sf) = n
  /\ Forall (fun r => length r = sf_count sf) (stored_fields n sf).
Proof.
  destruct sf as [m|]; cbn [wf_scalar_fields stored_fields sf_count].
  - intros [[Hr Hc] Hn]. split.
    + rewrite length_map. congruence.
    + apply Forall_map. eapply Forall_impl; [|exact Hc].
      intros r Hr'. cbv beta in *. now rewrite length_map.
  - intros _. split; [apply repeat_length|].
    apply Forall_forall. intros r Hr. apply repeat_spec in Hr. now subst.
Qed.

Section RoundTrip.
Variable py_eval : string -> option (list f64).

(** Reading what a plain call of [write_sbf] wrote, with a header that
  holds the same global shift. *)
Lemma read_sbf_written (pc : matrix f64) (sf : option (matrix f64))
(sbf : ConfigParser) (sec : section) (s : string) (g : list f64) (x y z : f64) :
wf_matrix pc -> ncols pc = 3 ->
wf_scalar_fields (nrows pc) sf ->
od_get "SBF" sbf = Some sec ->
od_get "GlobalShift" sec = Some s ->
py_eval s = Some g -> length g = 3 ->
(N.of_nat (nrows pc) < 2 ^ 64)%N ->
(N.of_nat (sf_count sf) < 2 ^ 16)%N ->
local_shift pc g = [x; y; z] ->
read_sbf py_eval sbf
  (preamble (N.of_nat (nrows pc)) (N.of_nat (sf_count sf)) x y z
   ++ flat_map pack_f
        (concat (zip_with (@app f32) (stored_coordinates pc g)
                   (stored_fields (nrows pc) sf))))
= Ok (coordinates_read_back pc g, fields_read_back sf, Some sbf).
Proof.
intros Hpc Hc Hsf Hsec Hgs Hev Hg HN HS Els.
destruct (stored_coordinates_shape pc g Hpc Hc Hg) as [Hlen Hthree].
destruct (stored_fields_shape _ _ Hsf) as [Hflen Hfs].
destruct (rows_of_written (sf_count sf) (stored_coordinates pc g)
            (stored_fields (nrows pc) sf) (eq_trans Hflen (eq_sym Hlen)) Hthree Hfs)
  as (Hrl & Hru & Hfirst & Hskip).
destruct (payload_rows_written (nrows pc) (sf_count sf) x y z _ HN HS
            (eq_trans Hrl Hlen) Hru) as (Hwf & ENp & ENs & Eshift & Erows).
destruct (read_sbf_wf py_eval sbf _ Hwf) as (shift & Hshift & _ & ->).
rewrite Eshift in Hshift. injection Hshift as <-.
rewrite ENp, ENs, Erows, Nat2N.id, Nat2N.id.
rewrite (read_sbf_header_present _ _ Hsec).
f_equal. f_equal. f_equal.
- unfold apply_global_shift, header_global_shift.
  rewrite (sbf_get_eq _ _ _ Hsec), Hgs. cbn [of_option]. rewrite Hev.
  rewrite iadd_row_same_length by exact Hg.
  unfold coordinates_read_back. cbn [nrows ncols mrows]. f_equal.
  rewrite map_map, Els.
  rewrite <- Hfirst at 2. rewrite map_map. reflexivity.
- rewrite Hskip. destruct sf as [m|]; cbn [sf_count fields_read_back stored_fields].
  + destruct Hsf as [_ Hn].
    destruct (Nat.eqb_spec (ncols m) 0) as [E|E].
    * rewrite E. reflexivity.
    * replace (N.of_nat (ncols m) =? 0)%N with false
        by (symmetry; apply N.eqb_neq; lia).
      unfold matrix_map. now rewrite Hn.
  + reflexivity.
Qed.

End RoundTrip.

(** **** C3 *)




(** **** C4 *)




(** **** C5 *)

(** C5 fails on the code by a slip of [write_sbf]: with normals, the count
    is written under the key [SFcount], the key [SFCount] keeps the count
    from before, and the payload gets three more columns.  For one scalar
    field the written header declares one field and the preamble four. *)
Lemma write_sbf_normals_stale_count :
  exists config' sbf_data,
    write_sbf Sample.eval Sample.points (Some Sample.field) (Some Sample.header1)
      false (Some Sample.points) = Ok (config', sbf_data)
    /\ sbf_get "SFCount" config' = Ok "1"
    /\ sbf_get "SFcount" config' = Ok "4"
    /\ payload_Ns sbf_data = 4%N
    /\ wf_payload sbf_data = true.
Proof. eexists _, _. repeat split; vm_compute; reflexivity. Qed.

(** * Further properties of the scalar-field bookkeeping *)

(** ** The invariant, from the lookups of a section *)

Lemma NoDup_keys_entries {V} (d : odict V) : NoDup (od_keys d) -> NoDup d.
Proof. apply NoDup_map_inv. Qed.

Lemma od_get_mem {V} (d : odict V) (k : string) :
  od_get k d <> None <-> In k (od_keys d).
Proof.
  pose proof (od_get_None k d) as H. destruct (od_get k d) as [v|] eqn:E.
  - split; [|discriminate]. intros _.
    apply od_get_In in E. apply in_map_iff. now exists (k, v).
  - split; [congruence|]. intros HI. now apply H in HI.
Qed.

Lemma In_keys_get {V} (d : odict V) (k : string) (v : V) :
  NoDup (od_keys d) -> (In (k, v) d <-> od_get k d = Some v).
Proof.
  intros Hn. split; [now apply NoDup_keys_get|apply od_get_In].
Qed.

Lemma sf_names_NoDup_of_get (sec : section) :
  NoDup (od_keys sec) ->
  (forall k k' v, is_sf_key k = true -> is_sf_key k' = true ->
                  od_get k sec = Some v -> od_get k' sec = Some v -> k = k') ->
  NoDup (sf_names sec).
Proof.
  intros Hn Hinj. unfold sf_names.
  apply NoDup_map_NoDup_ForallPairs.
  - intros [k v] [k' v'] HI HI' E. simpl in E. subst v'.
    apply filter_In in HI as [HI Hk], HI' as [HI' Hk']. simpl in Hk, Hk'.
    f_equal. apply (Hinj k k' v); auto; now apply NoDup_keys_get.
  - apply NoDup_filter. now apply NoDup_keys_entries.
Qed.

Lemma WfHeader_of_get (n : nat) (sec : section) :
  od_get "SFCount" sec = Some (PyStr.str (Z.of_nat n)) ->
  NoDup (od_keys sec) ->
  (forall key i, od_get key sec <> None -> sf_key_index key = Some i ->
                 key = SF (i + 1) /\ (0 <= i < Z.of_nat n)%Z) ->
  (forall k, (1 <= k <= Z.of_nat n)%Z -> od_get (SF k) sec <> None) ->
  (forall k k' v, (1 <= k <= Z.of_nat n)%Z -> (1 <= k' <= Z.of_nat n)%Z ->
                  od_get (SF k) sec = Some v -> od_get (SF k') sec = Some v ->
                  k = k') ->
  WfHeader n sec.
Proof.
  intros Hc Hn Hk Hp Hinj. constructor; try assumption.
  - intros key i HI. apply Hk. now apply od_get_mem.
  - apply sf_names_NoDup_of_get; [assumption|].
    intros k k' v Hq Hq' Hg Hg'. unfold is_sf_key in Hq, Hq'.
    destruct (sf_key_index k) as [i|] eqn:E; [|discriminate].
    destruct (sf_key_index k') as [i'|] eqn:E'; [|discriminate].
    destruct (Hk k i ltac:(congruence) E) as [-> Hi].
    destruct (Hk k' i' ltac:(congruence) E') as [-> Hi'].
    f_equal. apply (Hinj (i + 1)%Z (i' + 1)%Z v); auto; lia.
Qed.

Lemma WfHeader_get_inj (n : nat) (sec : section) (k k' : Z) (v : string) :
  WfHeader n sec ->
  (1 <= k <= Z.of_nat n)%Z -> (1 <= k' <= Z.of_nat n)%Z ->
  od_get (SF k) sec = Some v -> od_get (SF k') sec = Some v -> k = k'.
Proof.
  intros Hwf Hk Hk' Hg Hg'.
  assert (last_index v sec = Some (k - 1)%Z) as E.
  { apply (WfHeader_last_index n sec v (k - 1) Hwf).
    replace (k - 1 + 1)%Z with k by lia. split; [lia|assumption]. }
  assert (last_index v sec = Some (k' - 1)%Z) as E'.
  { apply (WfHeader_last_index n sec v (k' - 1) Hwf).
    replace (k' - 1 + 1)%Z with k' by lia. split; [lia|assumption]. }
  rewrite E in E'. injection E' as E'. lia.
Qed.

(** ** Looking a name up *)





(** ** Adding a field *)

Lemma od_keys_app {V} (d d' : odict V) : od_keys (d ++ d') = od_keys d ++ od_keys d'.
Proof. unfold od_keys. apply map_app. Qed.

Lemma NoDup_snoc {A} (l : list A) (x : A) : NoDup l -> ~ In x l -> NoDup (l ++ [x]).
Proof.
  intros Hl Hx. apply NoDup_app; [assumption|repeat constructor; intros []|].
  intros y Hy [<-|[]]. contradiction.
Qed.

Lemma od_set_other {V} (sname : string) (s : V) (config : odict V) (other : string) :
  other <> sname -> od_get other (od_set sname s config) = od_get other config.
Proof.
  intros H. rewrite od_get_set. destruct (String.eqb_spec other sname); congruence.
Qed.

(** The section that [add_sf] leaves, and its lookups. *)
Lemma added_section_get (n : Z) (name : string) (sec : section) (key : string) :
  od_get "SFCount" sec <> None ->
  od_get key (od_set "SFCount" (PyStr.str (n + 1)) sec ++ [(SF (n + 1), name)])
  = if String.eqb key "SFCount" then Some (PyStr.str (n + 1))
    else match od_get key sec with
         | Some v => Some v
         | None => if String.eqb key (SF (n + 1)) then Some name else None
         end.
Proof.
  intros Hc. rewrite od_get_app, od_get_set. cbn [od_get].
  destruct (String.eqb key "SFCount"); [reflexivity|].
  destruct (od_get key sec); reflexivity.
Qed.

Lemma WfHeader_add (n : nat) (sec : section) (name : string) :
  WfHeader n sec -> ~ In name (sf_names sec) ->
  WfHeader (n + 1)
    (od_set "SFCount" (PyStr.str (Z.of_nat n + 1)) sec ++ [(SF (Z.of_nat n + 1), name)]).
Proof.
  intros Hwf Hfresh. pose proof Hwf as [Hc Hn Hk Hp Hs].
  assert (od_get "SFCount" sec <> None) as Hc' by congruence.
  assert (od_get (SF (Z.of_nat n + 1)) sec = None) as Hnext.
  { apply od_get_None. intros HI.
    assert (0 <= Z.of_nat n + 1)%Z as H0 by lia.
    destruct (Hk _ _ HI (sf_key_index_SF _ H0)). lia. }
  apply WfHeader_of_get.
  - rewrite added_section_get by assumption. cbn [String.eqb Ascii.eqb Bool.eqb].
    do 2 f_equal. lia.
  - rewrite od_keys_app, od_keys_set_present by assumption. cbn [od_keys map fst].
    apply NoDup_snoc; [assumption|]. now apply od_get_None.
  - intros key i Hget Hki. rewrite added_section_get in Hget by assumption.
    destruct (String.eqb_spec key "SFCount") as [->|_]; [discriminate Hki|].
    destruct (od_get key sec) as [v|] eqn:E.
    + destruct (Hk key i) as [-> Hi]; [apply od_get_mem; congruence|assumption|].
      split; [reflexivity|lia].
    + destruct (String.eqb_spec key (SF (Z.of_nat n + 1))) as [->|_]; [|congruence].
      rewrite sf_key_index_SF in Hki by lia. injection Hki as <-.
      split; [f_equal; lia|lia].
  - intros k Hk1. rewrite added_section_get, SF_not_SFCount by (assumption || lia).
    destruct (Z.eq_dec k (Z.of_nat n + 1)) as [->|Hne].
    + rewrite Hnext, String.eqb_refl. discriminate.
    + specialize (Hp k ltac:(lia)). destruct (od_get (SF k) sec); congruence.
  - intros k k' v Hk1 Hk1' Hg Hg'.
    rewrite added_section_get, SF_not_SFCount in Hg, Hg' by (assumption || lia).
    rewrite !SF_eqb in * by lia.
    assert (forall j, (1 <= j <= Z.of_nat n)%Z -> od_get (SF j) sec <> Some name) as Hnot.
    { intros j Hj Hgj. apply Hfresh. apply in_sf_names. exists (SF j).
      split; [now apply od_get_In|]. unfold is_sf_key.
      now rewrite sf_key_index_SF by lia. }
    destruct (Z.eqb_spec k (Z.of_nat n + 1)) as [->|Hne],
             (Z.eqb_spec k' (Z.of_nat n + 1)) as [->|Hne']; try reflexivity.
    + rewrite Hnext in Hg. injection Hg as <-.
      destruct (od_get (SF k') sec) eqn:E; [|discriminate].
      exfalso. apply (Hnot k'); [lia|congruence].
    + rewrite Hnext in Hg'. injection Hg' as <-.
      destruct (od_get (SF k) sec) eqn:E; [|discriminate].
      exfalso. apply (Hnot k); [lia|congruence].
    + destruct (od_get (SF k) sec) eqn:E; [|discriminate].
      destruct (od_get (SF k') sec) eqn:E'; [|discriminate].
      apply (WfHeader_get_inj n sec k k' v Hwf); try lia; congruence.
Qed.

Lemma appended_rows_shape {A} (n : nat) (rows : list (list A)) (col : list A) :
  Forall (fun r => length r = n) rows ->
  length col = length rows ->
  length (map (fun rx => fst rx ++ [snd rx]) (combine rows col)) = length rows
  /\ Forall (fun r => length r = n + 1)
       (map (fun rx => fst rx ++ [snd rx]) (combine rows col)).
Proof.
  intros Hrows Hlen. split.
  - rewrite length_map, length_combine. lia.
  - apply Forall_map. apply Forall_forall. intros [r x] HI.
    apply in_combine_l in HI. rewrite Forall_forall in Hrows.
    cbn [fst snd]. rewrite length_app, (Hrows r HI). reflexivity.
Qed.

Lemma last_index_set_other_key (other key v : string) (sec : section) :
  sf_key_index key = None ->
  last_index other (od_set key v sec) = last_index other sec.
Proof.
  intros Hk. induction sec as [|[k0 v0] sec IH]; cbn [od_set last_index].
  - rewrite Hk. now destruct (String.eqb other v).
  - destruct (String.eqb_spec key k0) as [<-|Hne]; cbn [last_index].
    + rewrite Hk. destruct (last_index other sec); [reflexivity|].
      now destruct (String.eqb other v), (String.eqb other v0).
    + now rewrite IH.
Qed.





(** ** Renaming a field *)





(** ** Removing a field *)

Lemma od_get_del {V} (k key : string) (d : odict V) :
  od_get key (od_del k d) = if String.eqb key k then None else od_get key d.
Proof.
  induction d as [|[k0 v0] d IH]; cbn [od_del od_get].
  - now destruct (String.eqb key k).
  - destruct (String.eqb_spec k k0) as [<-|Hne].
    + rewrite IH. destruct (String.eqb_spec key k); reflexivity.
    + cbn [od_get]. rewrite IH.
      destruct (String.eqb_spec key k0) as [->|]; [|reflexivity].
      destruct (String.eqb_spec k0 k); congruence.
Qed.

Lemma NoDup_keys_del {V} (k : string) (d : odict V) :
  NoDup (od_keys d) -> NoDup (od_keys (od_del k d)).
Proof.
  intros Hn. induction d as [|[k0 v0] d IH]; cbn [od_del od_keys map fst] in *.
  - constructor.
  - inversion Hn as [|? ? Hk0 Hn']; subst.
    destruct (String.eqb k k0); [auto|].
    cbn [od_keys map fst]. constructor; [|auto].
    intros HI. apply Hk0. apply od_get_mem in HI. apply od_get_mem.
    rewrite od_get_del in HI. destruct (String.eqb k0 k); congruence.
Qed.

Lemma NoDup_py_range_from (n : nat) (a : Z) : NoDup (py_range_from n a).
Proof.
  revert a. induction n as [|n IH]; intros a; cbn [py_range_from]; constructor.
  - rewrite in_py_range_from. lia.
  - apply IH.
Qed.

Section Copied.
Variables (sec : section) (src : Z -> Z).

Lemma copied_cons (idx : Z) (idxs : list Z) (s : section) :
  copied sec src (idx :: idxs) s
  = copied sec src idxs (match od_get (SF (src idx)) sec with
                         | Some v => od_set (SF idx) v s
                         | None => s
                         end).
Proof. reflexivity. Qed.

Lemma od_get_copied_other (key : string) (idxs : list Z) (s : section) :
  (forall idx, In idx idxs -> key <> SF idx) ->
  od_get key (copied sec src idxs s) = od_get key s.
Proof.
  revert s. induction idxs as [|idx idxs IH]; intros s H; [reflexivity|].
  rewrite copied_cons, IH by (intros; apply H; now right).
  destruct (od_get (SF (src idx)) sec); [|reflexivity].
  rewrite od_get_set. destruct (String.eqb_spec key (SF idx)) as [->|]; [|reflexivity].
  exfalso. apply (H idx); [now left|reflexivity].
Qed.

Lemma od_get_copied (idx : Z) (idxs : list Z) (s : section) :
  NoDup idxs -> (forall k, In k idxs -> (1 <= k)%Z) ->
  (forall k, In k idxs -> od_get (SF (src k)) sec <> None) ->
  In idx idxs ->
  od_get (SF idx) (copied sec src idxs s) = od_get (SF (src idx)) sec.
Proof.
  revert s. induction idxs as [|a idxs IH]; intros s Hnd Hpos Hsrc HI; [destruct HI|].
  inversion Hnd as [|? ? Ha Hnd']; subst.
  rewrite copied_cons.
  destruct (in_dec Z.eq_dec idx idxs) as [Hin|Hnin].
  - apply IH; auto; intros; [apply Hpos|apply Hsrc]; now right.
  - destruct HI as [->|HI]; [|contradiction].
    rewrite od_get_copied_other.
    + specialize (Hsrc idx (or_introl eq_refl)).
      destruct (od_get (SF (src idx)) sec); [apply od_get_set_same|congruence].
    + intros k Hk E. apply SF_inj in E.
      * congruence.
      * specialize (Hpos idx (or_introl eq_refl)). lia.
      * specialize (Hpos k (or_intror Hk)). lia.
Qed.

Lemma od_keys_copied (idxs : list Z) (s : section) :
  (forall k, In k idxs -> od_get (SF k) s <> None) ->
  od_keys (copied sec src idxs s) = od_keys s.
Proof.
  revert s. induction idxs as [|a idxs IH]; intros s H; [reflexivity|].
  rewrite copied_cons.
  destruct (od_get (SF (src a)) sec) as [v|].
  - rewrite IH.
    + apply od_keys_set_present. apply H. now left.
    + intros k Hk. rewrite od_get_set.
      destruct (String.eqb (SF k) (SF a)); [discriminate|]. apply H. now right.
  - apply IH. intros; apply H; now right.
Qed.

(** The loop of [remove_sf] that copies the names. *)
Lemma for_each_copied (config : ConfigParser) (idxs : list Z) (s : section) :
  od_get "SBF" config = Some sec ->
  (forall k, In k idxs -> od_get (SF (src k)) sec <> None) ->
  for_each idxs
    (fun idx nc => v <- sbf_get (SF (src idx)) config ;; sbf_set (SF idx) v nc)
    (od_set "SBF" s config)
  = Ok (od_set "SBF" (copied sec src idxs s) config).
Proof.
  intros Hsec. revert s. induction idxs as [|a idxs IH]; intros s H; [reflexivity|].
  cbn [for_each]. rewrite copied_cons, (sbf_get_eq _ _ _ Hsec).
  specialize (H a (or_introl eq_refl)) as Ha.
  destruct (od_get (SF (src a)) sec) as [v|]; [|congruence].
  cbn [of_option bind].
  rewrite (sbf_set_eq _ _ _ _ (od_get_set_same _ _ _)), od_set_set. cbn [bind].
  apply IH. intros; apply H; now right.
Qed.

End Copied.

Lemma nth_remove_nth {A} (d : A) (i j : nat) (l : list A) :
  i < length l ->
  nth j (remove_nth i l) d = nth (if Nat.ltb j i then j else S j) l d.
Proof.
  intros Hi. unfold remove_nth.
  destruct (Nat.ltb_spec j i) as [Hlt|Hge].
  - rewrite app_nth1 by (rewrite length_firstn; lia).
    rewrite <- (firstn_skipn i l) at 2.
    rewrite app_nth1 by (rewrite length_firstn; lia). reflexivity.
  - rewrite app_nth2 by (rewrite length_firstn; lia).
    rewrite length_firstn. replace (Nat.min i (length l)) with i by lia.
    rewrite <- (firstn_skipn (S i) l) at 2.
    rewrite app_nth2 by (rewrite length_firstn; lia).
    rewrite length_firstn. replace (Nat.min (S i) (length l)) with (S i) by lia.
    f_equal; lia.
Qed.

Lemma length_remove_nth {A} (i : nat) (l : list A) :
  i < length l -> length (remove_nth i l) = length l - 1.
Proof.
  intros Hi. unfold remove_nth.
  rewrite length_app, length_firstn, length_skipn. lia.
Qed.

Section Removal.
Variables (n : nat) (sec : section) (i : Z).
Hypothesis Hwf : WfHeader n sec.
Hypothesis Hi : (0 <= i < Z.of_nat n)%Z.

Local Abbreviation F := (section_after_removal sec (Z.of_nat n) i).

Lemma removal_sources (k : Z) :
  In k (py_range (i + 1) (Z.of_nat n)) -> od_get (SF (k + 1)) sec <> None.
Proof. intros Hk. apply in_py_range in Hk. apply (wfh_present _ _ Hwf). lia. Qed.

Lemma removal_get_count :
  od_get "SFCount" F = Some (PyStr.str (Z.of_nat n - 1)).
Proof.
  unfold F, section_after_removal. rewrite od_get_copied_other.
  - rewrite od_get_del, String.eqb_sym, SF_not_SFCount by lia.
    apply od_get_set_same.
  - intros idx Hidx E. apply in_py_range in Hidx.
    pose proof (SF_not_SFCount idx ltac:(lia)) as H.
    rewrite <- E, String.eqb_refl in H. discriminate.
Qed.

Lemma removal_get_other (key : string) :
  is_sf_key key = false -> key <> "SFCount" -> od_get key F = od_get key sec.
Proof.
  intros Hk Hc. unfold F, section_after_removal. rewrite od_get_copied_other.
  - rewrite od_get_del, od_get_set.
    destruct (String.eqb_spec key (SF (Z.of_nat n))) as [->|_].
    + unfold is_sf_key in Hk. rewrite sf_key_index_SF in Hk by lia. discriminate.
    + destruct (String.eqb_spec key "SFCount"); congruence.
  - intros idx Hidx ->. apply in_py_range in Hidx.
    unfold is_sf_key in Hk. rewrite sf_key_index_SF in Hk by lia. discriminate.
Qed.

Lemma removal_get_SF (k : Z) :
  (1 <= k <= Z.of_nat n - 1)%Z ->
  od_get (SF k) F = od_get (SF (key_before_removal i k)) sec.
Proof.
  intros Hk. unfold F, section_after_removal, key_before_removal.
  destruct (Z.leb_spec k i) as [Hle|Hgt].
  - rewrite od_get_copied_other.
    + rewrite od_get_del, od_get_set, SF_eqb, SF_not_SFCount by lia.
      destruct (Z.eqb_spec k (Z.of_nat n)); [lia|reflexivity].
    + intros idx Hidx E. apply in_py_range in Hidx. apply SF_inj in E; lia.
  - apply (od_get_copied sec (fun idx => (idx + 1)%Z) k).
    + apply NoDup_py_range_from.
    + intros idx Hidx. apply in_py_range in Hidx. lia.
    + apply removal_sources.
    + apply in_py_range. lia.
Qed.

Lemma removal_keys :
  od_keys F = od_keys (od_del (SF (Z.of_nat n))
                         (od_set "SFCount" (PyStr.str (Z.of_nat n - 1)) sec)).
Proof.
  unfold F, section_after_removal. apply od_keys_copied.
  intros k Hk. apply in_py_range in Hk.
  rewrite od_get_del, od_get_set, SF_eqb, SF_not_SFCount by lia.
  destruct (Z.eqb_spec k (Z.of_nat n)); [lia|].
  apply (wfh_present _ _ Hwf). lia.
Qed.

Lemma removal_mem (key : string) :
  od_get key F <> None <-> key <> SF (Z.of_nat n) /\ od_get key sec <> None.
Proof.
  rewrite od_get_mem, removal_keys, <- od_get_mem, od_get_del, od_get_set.
  pose proof (wfh_count _ _ Hwf) as Hc.
  destruct (String.eqb_spec key (SF (Z.of_nat n))) as [->|Hne].
  - split; [congruence|]. intros [H _]. congruence.
  - destruct (String.eqb_spec key "SFCount") as [->|_].
    + rewrite Hc. split; [|discriminate]. intros _. split; [assumption|discriminate].
    + tauto.
Qed.

Lemma key_before_removal_range (k : Z) :
  (1 <= k <= Z.of_nat n - 1)%Z ->
  (1 <= key_before_removal i k <= Z.of_nat n)%Z /\ key_before_removal i k <> (i + 1)%Z.
Proof. unfold key_before_removal. destruct (Z.leb_spec k i); lia. Qed.

Lemma key_before_removal_inj (k k' : Z) :
  key_before_removal i k = key_before_removal i k' -> k = k'.
Proof.
  unfold key_before_removal. destruct (Z.leb_spec k i), (Z.leb_spec k' i); lia.
Qed.

Lemma WfHeader_removal : WfHeader (n - 1) F.
Proof.
  pose proof Hwf as [Hc Hn Hk Hp Hs].
  assert (Z.of_nat (n - 1) = Z.of_nat n - 1)%Z as En by lia.
  apply WfHeader_of_get; rewrite ?En.
  - apply removal_get_count.
  - rewrite removal_keys. apply NoDup_keys_del.
    rewrite od_keys_set_present by congruence. assumption.
  - intros key j Hget Hkey. apply removal_mem in Hget as [Hne Hget].
    apply od_get_mem in Hget. destruct (Hk key j Hget Hkey) as [-> Hj].
    split; [reflexivity|].
    assert (j + 1 <> Z.of_nat n)%Z by congruence. lia.
  - intros k Hk1. rewrite removal_get_SF by assumption.
    apply Hp. apply key_before_removal_range. assumption.
  - intros k k' v Hk1 Hk1' Hg Hg'.
    rewrite removal_get_SF in Hg, Hg' by assumption.
    apply key_before_removal_inj.
    apply (WfHeader_get_inj n sec _ _ v Hwf); try assumption;
      now apply key_before_removal_range.
Qed.

(** The lookups in the section that is left. *)
Lemma removal_last_index (other : string) (j' : Z) :
  last_index other F = Some j' <->
  (0 <= j' < Z.of_nat n - 1)%Z
  /\ last_index other sec = Some (key_before_removal i (j' + 1) - 1)%Z.
Proof.
  assert (Z.of_nat (n - 1) = Z.of_nat n - 1)%Z as En by lia.
  rewrite (WfHeader_last_index (n - 1) F other j' WfHeader_removal), En.
  split; intros [Hj H]; (split; [assumption|]).
  - rewrite removal_get_SF in H by lia.
    apply (WfHeader_last_index n sec other _ Hwf).
    destruct (key_before_removal_range (j' + 1) ltac:(lia)).
    split; [lia|]. rewrite <- H. f_equal. f_equal. lia.
  - rewrite removal_get_SF by lia.
    apply (WfHeader_last_index n sec other _ Hwf) in H as [_ H].
    rewrite <- H. f_equal. f_equal. lia.
Qed.

End Removal.

(** What [remove_sf] returns on a well-formed header. *)
Lemma remove_sf_eq {A} (name : string) (sf : matrix A) (config : ConfigParser)
  (sec : section) (i : Z) :
  od_get "SBF" config = Some sec ->
  WfHeader (ncols sf) sec ->
  last_index name sec = Some i ->
  remove_sf name sf config
  = Ok (Matrix (nrows sf) (ncols sf - 1)
          (map (remove_nth (Z.to_nat i)) (mrows sf)),
        od_set "SBF" (section_after_removal sec (Z.of_nat (ncols sf)) i) config).
Proof.
  intros Hsec Hwf Hidx.
  pose proof (proj1 (WfHeader_last_index _ sec name i Hwf) Hidx) as [Hi Hget].
  set (n := Z.of_nat (ncols sf)) in *.
  pose proof (wfh_count _ _ Hwf) as Hcount. fold n in Hcount.
  unfold remove_sf, get_name_index_dict.
  unfold sbf_section at 1. rewrite Hsec. cbn [of_option bind].
  rewrite name_index_of_get, Hidx. cbn [of_option bind].
  unfold np_delete_col. fold n.
  replace ((- n <=? i)%Z && (i <? n)%Z) with true
    by (symmetry; apply andb_true_iff; split; [apply Z.leb_le|apply Z.ltb_lt]; lia).
  replace (i <? 0)%Z with false by (symmetry; apply Z.ltb_ge; lia).
  cbn [bind].
  rewrite (sbf_get_eq _ _ _ Hsec), Hcount. cbn [of_option bind].
  rewrite py_int_str by lia. cbn [bind].
  rewrite (sbf_set_eq _ _ _ _ Hsec). cbn [bind].
  rewrite (sbf_remove_option_eq _ _ _ (od_get_set_same _ _ _)), od_set_set.
  cbn [bind].
  set (s2 := od_del (SF n) (od_set "SFCount" (PyStr.str (n - 1)) sec)).
  assert (forall idx, (1 <= idx <= i)%Z -> od_get (SF idx) s2 = od_get (SF idx) sec)
    as Hs2.
  { intros idx Hidx'. unfold s2.
    rewrite od_get_del, od_get_set, SF_eqb, SF_not_SFCount by lia.
    destruct (Z.eqb_spec idx n); [lia|reflexivity]. }
  rewrite for_each_fixed; cbn [bind].
  - pose proof (for_each_copied sec (fun idx => (idx + 1)%Z) config
                  (py_range (i + 1) n) s2 Hsec) as Hloop.
    cbv beta in Hloop. rewrite Hloop; [reflexivity|].
    intros k Hk. apply in_py_range in Hk. apply (wfh_present _ _ Hwf). fold n. lia.
  - intros idx Hin. apply in_py_range in Hin.
    rewrite (sbf_get_eq _ _ _ Hsec).
    pose proof (wfh_present _ _ Hwf idx ltac:(fold n; lia)) as Hp.
    destruct (od_get (SF idx) sec) as [v|] eqn:Hv; [|congruence].
    cbn [of_option bind].
    rewrite (sbf_set_eq _ _ _ _ (od_get_set_same _ _ _)), od_set_set.
    rewrite (od_set_id (SF idx) v s2); [reflexivity|]. rewrite Hs2 by lia. exact Hv.
Qed.



Lemma index_after_removal_key (i j' j : Z) :
  (0 <= j')%Z -> j <> i ->
  (key_before_removal i (j' + 1) - 1 = j <-> j' = index_after_removal i j)%Z.
Proof.
  unfold key_before_removal, index_after_removal.
  destruct (Z.leb_spec (j' + 1) i), (Z.ltb_spec j i); lia.
Qed.



(** * Further properties of the reading *)

Lemma unpack_uint_raises (k : nat) (l : list byte) (e : exn) :
  unpack_uint k l = Raise e -> e = StructError.
Proof. unfold unpack_uint. destruct (Nat.eqb (length l) k); congruence. Qed.

Lemma unpack_d_raises (l : list byte) (e : exn) :
  unpack_d l = Raise e -> e = StructError.
Proof.
  unfold unpack_d.
  do 8 (destruct l as [|? l]; [congruence|]). destruct l; congruence.
Qed.

Lemma unpack_d_short (l : list byte) : length l < 8 -> unpack_d l = Raise StructError.
Proof.
  intros H. unfold unpack_d.
  do 8 (destruct l as [|? l]; [reflexivity|]). simpl in H. lia.
Qed.

(** X11. A payload cut before the end of the three shifts of its preamble
    cannot be read: the decoding of the preamble raises struct.error,
    whatever the header. *)
Theorem read_sbf_truncated_preamble (py_eval : string -> option (list f64))
  (sbf : ConfigParser) (sbf_data : list byte) :
  length sbf_data < 36 ->
  read_sbf py_eval sbf sbf_data = Raise StructError.
Proof.
  intros Hlen. unfold read_sbf. cbv zeta.
  destruct (unpack_uint 8 _) as [Np|e] eqn:E1;
    [|now rewrite (unpack_uint_raises _ _ _ E1)].
  destruct (unpack_uint 2 _) as [Ns|e] eqn:E2;
    [|now rewrite (unpack_uint_raises _ _ _ E2)].
  destruct (unpack_d (slice 12 20 _)) as [x|e] eqn:E3;
    [|now rewrite (unpack_d_raises _ _ E3)].
  destruct (unpack_d (slice 20 28 _)) as [y|e] eqn:E4;
    [|now rewrite (unpack_d_raises _ _ E4)].
  cbn [bind]. rewrite unpack_d_short; [reflexivity|].
  unfold slice. rewrite length_firstn, length_skipn, length_firstn. lia.
Qed.

Lemma read_sbf_truncated_preamble_sample :
  read_sbf Sample.eval Sample.header (firstn 35 Sample.payload) = Raise StructError.
Proof.
  apply (read_sbf_truncated_preamble Sample.eval Sample.header
           (firstn 35 Sample.payload)).
  vm_compute. lia.
Defined.

(** X12. The two bytes of the flag and the 28 reserved bytes of the preamble
    are never looked at: two payloads that differ only there are read
    alike, with the same result or the same exception. *)
Theorem read_sbf_ignores_flag_and_reserved (py_eval : string -> option (list f64))
  (sbf : ConfigParser) (flag flag' fields reserved reserved' body : list byte) :
  length flag = 2 -> length flag' = 2 ->
  length fields = 34 ->
  length reserved = 28 -> length reserved' = 28 ->
  read_sbf py_eval sbf (flag ++ fields ++ reserved ++ body)
  = read_sbf py_eval sbf (flag' ++ fields ++ reserved' ++ body).
Proof.
  intros Hf Hf' Hfields Hr Hr'.
  do 2 (destruct flag as [|? flag]; [discriminate|]).
  destruct flag; [|discriminate].
  do 2 (destruct flag' as [|? flag']; [discriminate|]).
  destruct flag'; [|discriminate].
  do 34 (destruct fields as [|? fields]; [discriminate|]).
  destruct fields; [|discriminate].
  do 28 (destruct reserved as [|? reserved]; [discriminate|]).
  destruct reserved; [|discriminate].
  do 28 (destruct reserved' as [|? reserved']; [discriminate|]).
  destruct reserved'; [|discriminate].
  unfold read_sbf. cbn [app firstn skipn slice Nat.sub]. reflexivity.
Qed.

Lemma read_sbf_ignores_flag_and_reserved_sample :
  read_sbf Sample.eval Sample.header
    ([x2a; x2a] ++ firstn 34 (skipn 2 Sample.payload) ++ repeat x00 28
     ++ skipn 64 Sample.payload)
  = read_sbf Sample.eval Sample.header
      ([x00; xff] ++ firstn 34 (skipn 2 Sample.payload) ++ repeat xff 28
       ++ skipn 64 Sample.payload).
Proof.
  apply (read_sbf_ignores_flag_and_reserved Sample.eval Sample.header
           [x2a; x2a] [x00; xff] (firstn 34 (skipn 2 Sample.payload))
           (repeat x00 28) (repeat xff 28) (skipn 64 Sample.payload));
    reflexivity.
Defined.



(** * Further properties of the writing *)

(** ** The two halves *)

Lemma write_sbf_split (py_eval : string -> option (list f64))
  (pc : matrix f64) (sf : option (matrix f64)) (config : option ConfigParser)
  (add_index : bool) (normals : option (matrix f64)) :
  write_sbf py_eval pc sf config add_index normals
  = ('(SFCount, config) <- write_sbf_header pc sf config add_index normals ;;
     write_sbf_payload py_eval pc sf config SFCount add_index).
Proof.
  unfold write_sbf, write_sbf_header, write_sbf_payload.
  destruct (match config with
            | Some config0 => _
            | None => _
            end) as [c1|e]; cbn [bind]; [|reflexivity].
  destruct (if add_index then _ else _) as [[n2 c2]|e]; cbn [bind]; [|reflexivity].
  destruct (match normals with
            | Some _ => _
            | None => _
            end) as [[n3 c3]|e]; cbn [bind]; reflexivity.
Qed.

Lemma write_sbf_header_generated (pc : matrix f64) (sf : option (matrix f64))
  (add_index : bool) (normals : option (matrix f64)) :
  write_sbf_header pc sf None add_index normals
  = write_sbf_header pc sf
      (Some (generated_header (nrows pc) (sf_count sf))) add_index normals.
Proof. reflexivity. Qed.

Lemma write_sbf_header_no_section (pc : matrix f64) (sf : option (matrix f64))
  (config : ConfigParser) (add_index : bool) (normals : option (matrix f64)) :
  od_get "SBF" config = None ->
  write_sbf_header pc sf (Some config) add_index normals = Raise KeyError.
Proof.
  intros H. unfold write_sbf_header, sbf_set, sbf_section. now rewrite H.
Qed.

Lemma sbf_section_set (sec : section) (config : ConfigParser) :
  sbf_section (od_set "SBF" sec config) = Ok sec.
Proof. unfold sbf_section. now rewrite od_get_set_same. Qed.

Lemma sbf_set_set (key value : string) (sec : section) (config : ConfigParser) :
  sbf_set key value (od_set "SBF" sec config)
  = Ok (od_set "SBF" (od_set key value sec) config).
Proof.
  rewrite (sbf_set_eq _ _ _ _ (od_get_set_same _ _ _)). now rewrite od_set_set.
Qed.

Lemma write_sbf_header_eq (pc : matrix f64) (sf : option (matrix f64))
  (config : ConfigParser) (sec : section)
  (add_index : bool) (normals : option (matrix f64)) :
  od_get "SBF" config = Some sec ->
  write_sbf_header pc sf (Some config) add_index normals
  = Ok (stored_count sf add_index normals,
        od_set "SBF" (written_section pc sf add_index normals sec) config).
Proof.
  intros Hsec. unfold write_sbf_header, written_section, stored_count.
  fold (sf_count sf).
  rewrite (sbf_set_eq _ _ _ _ Hsec). cbn [bind].
  rewrite sbf_set_set. cbn [bind].
  assert (forall s : section,
             od_mem "SFCount"
               (od_set "SFCount" (PyStr.str (Z.of_nat (sf_count sf))) s) = true)
    as Hmem by (intros s; unfold od_mem; now rewrite od_get_set_same).
  destruct add_index.
  - rewrite sbf_section_set. cbn [bind]. rewrite Hmem.
    repeat (rewrite sbf_set_set; cbn [bind]).
    destruct normals as [nm|].
    + rewrite sbf_section_set. cbn [bind].
      unfold od_mem. rewrite !od_get_set.
      rewrite (String.eqb_sym "SFCount" (SF _)), SF_not_SFCount by lia.
      change (String.eqb "SFCount" "SFcount") with false. cbv iota.
      rewrite String.eqb_refl.
      repeat (rewrite sbf_set_set; cbn [bind]).
      replace (Z.of_nat (sf_count sf + 1 + 3)) with (Z.of_nat (sf_count sf + 1) + 3)%Z
        by lia.
      replace (sf_count sf + 1 + 0) with (sf_count sf + 1) by lia.
      reflexivity.
    + cbn [bind]. replace (sf_count sf + 1 + 0) with (sf_count sf + 1) by lia.
      reflexivity.
  - cbn [bind]. destruct normals as [nm|].
    + rewrite sbf_section_set. cbn [bind]. rewrite Hmem.
      repeat (rewrite sbf_set_set; cbn [bind]).
      replace (sf_count sf + 0 + 3) with (sf_count sf + 3) by lia. reflexivity.
    + replace (sf_count sf + 0 + 0) with (sf_count sf) by lia. reflexivity.
Qed.

Lemma bind_Ok {A B} (r : result A) (k : A -> result B) (b : B) :
  bind r k = Ok b -> exists a, r = Ok a /\ k a = Ok b.
Proof. destruct r as [a|e]; simpl; [eauto|discriminate]. Qed.

Lemma assign_cols_shape {A} (lo hi : nat) (a x a' : matrix A) :
  assign_cols lo hi a x = Ok a' -> nrows a' = nrows a /\ ncols a' = ncols a.
Proof.
  unfold assign_cols. destruct (broadcast_to _ _ x); simpl; [|discriminate].
  intros [= <-]. split; reflexivity.
Qed.

Lemma assign_cols_width {A} (lo hi : nat) (a x a' : matrix A) :
  assign_cols lo hi a x = Ok a' -> ncols x = hi - lo \/ ncols x = 1.
Proof.
  unfold assign_cols, broadcast_to.
  destruct (if Nat.eqb (nrows x) (nrows a) then _ else _); simpl; [|discriminate].
  destruct (Nat.eqb_spec (ncols x) (hi - lo)); [auto|].
  destruct (Nat.eqb_spec (ncols x) 1); [auto|discriminate].
Qed.

Lemma pack_uint_Ok (k : nat) (n : N) (l : list byte) :
  pack_uint k n = Ok l -> (n < 256 ^ N.of_nat k)%N /\ l = be_encode k n.
Proof.
  unfold pack_uint. destruct (N.ltb_spec n (256 ^ N.of_nat k)); [|discriminate].
  intros [= <-]. now split.
Qed.

Lemma of_option_Ok {A} (e : exn) (o : option A) (a : A) :
  of_option e o = Ok a -> o = Some a.
Proof. destruct o; simpl; congruence. Qed.

(** ** The second half *)

(** The array [b] that is to receive the array [a] and the index has two
    columns less than [a]. *)
Lemma write_sbf_payload_index (py_eval : string -> option (list f64))
  (pc : matrix f64) (sf : option (matrix f64)) (config : ConfigParser) (n : nat) :
  exists e, write_sbf_payload py_eval pc sf config n true = Raise e.
Proof.
  unfold write_sbf_payload.
  destruct (sbf_get "GlobalShift" config) as [s|e]; cbn [bind]; [|eauto].
  destruct (py_eval s) as [g|]; cbn [of_option bind]; [|eauto].
  destruct (sub_row pc g) as [pcOrig|e]; cbn [bind]; [|eauto].
  cbv zeta.
  destruct (assign_cols 0 3 _ _) as [a0|e] eqn:E0; cbn [bind]; [|eauto].
  apply assign_cols_shape in E0 as [_ E0]. cbn [ncols np_zeros] in E0.
  destruct (if negb (Nat.eqb n 0) then _ else _) as [a1|e] eqn:E1;
    cbn [bind]; [|eauto].
  assert (ncols a1 = n + 3) as Hc.
  { destruct (negb (Nat.eqb n 0)).
    - destruct sf as [m|]; [|discriminate].
      apply assign_cols_shape in E1 as [_ E1]. congruence.
    - injection E1 as <-. exact E0. }
  destruct (assign_cols 0 n _ a1) as [b|e] eqn:Eb; cbn [bind]; [|eauto].
  apply assign_cols_width in Eb. lia.
Qed.

Lemma written_bytes (Np Ns : N) (x y z : f64) (body : list byte) :
  [x2a; x2a] ++ be_encode 8 Np ++ be_encode 2 Ns
  ++ pack_d x ++ pack_d y ++ pack_d z ++ repeat x00 (63 - 36 + 1) ++ body
  = preamble Np Ns x y z ++ body.
Proof. unfold preamble. cbn [Nat.sub Nat.add]. now rewrite <- !app_assoc. Qed.

Lemma write_sbf_payload_Ok (py_eval : string -> option (list f64))
  (pc : matrix f64) (sf : option (matrix f64)) (config : ConfigParser) (n : nat)
  (h : ConfigParser) (sbf_data : list byte) :
  write_sbf_payload py_eval pc sf config n false = Ok (h, sbf_data) ->
  h = config
  /\ (N.of_nat (nrows pc) < 2 ^ 64)%N /\ (N.of_nat n < 2 ^ 16)%N
  /\ payload_Np sbf_data = N.of_nat (nrows pc)
  /\ payload_Ns sbf_data = N.of_nat n
  /\ (exists s g, sbf_get "GlobalShift" config = Ok s /\ py_eval s = Some g)
  /\ (n <> 0 -> exists m, sf = Some m /\ (ncols m = n \/ ncols m = 1)).
Proof.
  unfold write_sbf_payload. intros H.
  apply bind_Ok in H as (s & Hs & H).
  apply bind_Ok in H as (g & Hg & H). apply of_option_Ok in Hg.
  apply bind_Ok in H as (pcOrig & _ & H). cbv zeta in H.
  apply bind_Ok in H as (a0 & _ & H).
  apply bind_Ok in H as (a1 & Ha1 & H). cbn [bind] in H.
  apply bind_Ok in H as (Np & HNp & H). apply pack_uint_Ok in HNp as [HN ->].
  apply bind_Ok in H as (Ns & HNs & H). apply pack_uint_Ok in HNs as [HS ->].
  apply bind_Ok in H as (x & _ & H).
  apply bind_Ok in H as (y & _ & H).
  apply bind_Ok in H as (z & _ & H).
  rewrite written_bytes in H.
  assert (h = config
          /\ sbf_data = preamble (N.of_nat (nrows pc)) (N.of_nat n) x y z
                        ++ tobytes a1) as [-> ->] by (split; congruence).
  clear H.
  change (256 ^ N.of_nat 8)%N with (2 ^ 64)%N in HN.
  change (256 ^ N.of_nat 2)%N with (2 ^ 16)%N in HS.
  destruct (preamble_fields (N.of_nat (nrows pc)) (N.of_nat n) x y z (tobytes a1)
              HN HS) as (E1 & E2 & _).
  repeat split; try assumption.
  - eauto.
  - intros Hn. apply Nat.eqb_neq in Hn. rewrite Hn in Ha1. cbn [negb] in Ha1.
    destruct sf as [m|]; [|discriminate]. exists m. split; [reflexivity|].
    apply assign_cols_width in Ha1. cbn [ncols matrix_map] in Ha1. lia.
Qed.

(** ** The first half *)

Lemma write_sbf_header_Ok (pc : matrix f64) (sf : option (matrix f64))
  (config : option ConfigParser) (add_index : bool) (normals : option (matrix f64))
  (n : nat) (h : ConfigParser) :
  write_sbf_header pc sf config add_index normals = Ok (n, h) ->
  n = stored_count sf add_index normals
  /\ exists config0 sec,
       config0 = match config with
                 | Some config => config
                 | None => generated_header (nrows pc) (sf_count sf)
                 end
       /\ od_get "SBF" config0 = Some sec
       /\ h = od_set "SBF" (written_section pc sf add_index normals sec) config0.
Proof.
  intros H. destruct config as [config|].
  - destruct (od_get "SBF" config) as [sec|] eqn:Hsec.
    + rewrite (write_sbf_header_eq _ _ _ _ _ _ Hsec) in H. injection H as <- <-.
      split; [reflexivity|]. exists config, sec. auto.
    + rewrite write_sbf_header_no_section in H by assumption. discriminate.
  - rewrite write_sbf_header_generated in H.
    assert (exists sec,
               od_get "SBF" (generated_header (nrows pc) (sf_count sf)) = Some sec)
      as [sec Hsec] by (eexists; reflexivity).
    rewrite (write_sbf_header_eq _ _ _ _ _ _ Hsec) in H. injection H as <- <-.
    split; [reflexivity|]. eexists _, sec. auto.
Qed.

Lemma is_sf_key_SF (k : Z) : (0 <= k)%Z -> is_sf_key (SF k) = true.
Proof. intros H. unfold is_sf_key. now rewrite sf_key_index_SF. Qed.

Lemma eqb_SF_other (key : string) (k : Z) :
  is_sf_key key = false -> (0 <= k)%Z -> String.eqb key (SF k) = false.
Proof.
  intros Hk H. apply String.eqb_neq. intros ->.
  rewrite is_sf_key_SF in Hk by assumption. discriminate.
Qed.

(** The keys that the first half touches: [Points], [SFCount], [SFcount]
    and scalar-field keys. *)
Lemma written_section_other (pc : matrix f64) (sf : option (matrix f64))
  (add_index : bool) (normals : option (matrix f64)) (sec : section) (key : string) :
  key <> "Points" -> key <> "SFCount" -> key <> "SFcount" ->
  is_sf_key key = false ->
  od_get key (written_section pc sf add_index normals sec) = od_get key sec.
Proof.
  intros H1 H2 H3 Hk. apply String.eqb_neq in H1, H2, H3.
  unfold written_section.
  destruct add_index, normals as [nm|]; cbv zeta;
    rewrite !od_get_set, ?H1, ?H2, ?H3, ?eqb_SF_other by (assumption || lia);
    reflexivity.
Qed.

Lemma written_section_counts (pc : matrix f64) (sf : option (matrix f64))
  (add_index : bool) (normals : option (matrix f64)) (sec : section) :
  od_get "Points" (written_section pc sf add_index normals sec)
  = Some (PyStr.str (Z.of_nat (nrows pc)))
  /\ od_get "SFCount" (written_section pc sf add_index normals sec)
     = Some (PyStr.str (Z.of_nat (sf_count sf))).
Proof.
  unfold written_section.
  destruct add_index, normals as [nm|]; cbv zeta;
    rewrite !od_get_set,
      ?(eqb_SF_other "Points"), ?(eqb_SF_other "SFCount") by (reflexivity || lia);
    split; reflexivity.
Qed.

(** ** What every call does *)

(** X14. A call with [add_index] never returns: whatever the points, the
    scalar fields, the header and the normals, it raises an exception.
    (When nothing fails before, the array of [SFCount + 3] columns does not
    fit the [SFCount] columns of the array that is to receive it with the
    index.) *)
Theorem write_sbf_add_index_raises (py_eval : string -> option (list f64))
  (pc : matrix f64) (sf : option (matrix f64)) (config : option ConfigParser)
  (normals : option (matrix f64)) :
  exists e, write_sbf py_eval pc sf config true normals = Raise e.
Proof.
  rewrite write_sbf_split.
  destruct (write_sbf_header pc sf config true normals) as [[n h]|e];
    cbn [bind]; [apply write_sbf_payload_index|eauto].
Qed.

(** The two halves of a call that returns. *)
Lemma write_sbf_Ok (py_eval : string -> option (list f64))
  (pc : matrix f64) (sf : option (matrix f64)) (config : option ConfigParser)
  (add_index : bool) (normals : option (matrix f64))
  (h : ConfigParser) (sbf_data : list byte) :
  write_sbf py_eval pc sf config add_index normals = Ok (h, sbf_data) ->
  add_index = false
  /\ write_sbf_header pc sf config false normals
     = Ok (stored_count sf false normals, h)
  /\ write_sbf_payload py_eval pc sf h (stored_count sf false normals) false
     = Ok (h, sbf_data).
Proof.
  intros H. rewrite write_sbf_split in H.
  apply bind_Ok in H as ([n c] & Hh & H).
  destruct add_index.
  - destruct (write_sbf_payload_index py_eval pc sf c n) as [e He]. congruence.
  - split; [reflexivity|].
    destruct (write_sbf_header_Ok _ _ _ _ _ _ _ Hh) as [-> _].
    destruct (write_sbf_payload_Ok _ _ _ _ _ _ _ H) as [-> _]. auto.
Qed.

(** X15. Whenever a call returns, the header that is written and the preamble
    of the data agree on the number of points, which is the number of rows
    of [pc] and is less than 2^64; the header holds under [SFCount] the
    number of columns of [sf], the preamble the number of columns that are
    stored, which is less than 2^16; and the header holds a global shift
    that evaluates. *)
Theorem write_sbf_postcondition (py_eval : string -> option (list f64))
  (pc : matrix f64) (sf : option (matrix f64)) (config : option ConfigParser)
  (add_index : bool) (normals : option (matrix f64))
  (h : ConfigParser) (sbf_data : list byte) :
  write_sbf py_eval pc sf config add_index normals = Ok (h, sbf_data) ->
  sbf_get "Points" h = Ok (PyStr.str (Z.of_nat (nrows pc)))
  /\ payload_Np sbf_data = N.of_nat (nrows pc)
  /\ (N.of_nat (nrows pc) < 2 ^ 64)%N
  /\ sbf_get "SFCount" h = Ok (PyStr.str (Z.of_nat (sf_count sf)))
  /\ payload_Ns sbf_data = N.of_nat (stored_count sf add_index normals)
  /\ (N.of_nat (stored_count sf add_index normals) < 2 ^ 16)%N
  /\ exists s g, sbf_get "GlobalShift" h = Ok s /\ py_eval s = Some g.
Proof.
  intros H. apply write_sbf_Ok in H as (-> & Hh & Hp).
  apply write_sbf_header_Ok in Hh as (_ & config0 & sec & _ & Hsec & Hh).
  apply write_sbf_payload_Ok in Hp as (_ & HN & HS & ENp & ENs & Hg & _).
  assert (od_get "SBF" h = Some (written_section pc sf false normals sec)) as Hsec'
    by (rewrite Hh; apply od_get_set_same).
  destruct (written_section_counts pc sf false normals sec) as [EP EC].
  rewrite (sbf_get_eq _ _ "Points" Hsec'), (sbf_get_eq _ _ "SFCount" Hsec'), EP, EC.
  repeat (split; [first [assumption|reflexivity]|]). exact Hg.
Qed.

Lemma write_sbf_postcondition_sample :
  sbf_get "Points" (fst SampleFiles.plain) = Ok (PyStr.str (Z.of_nat 2))
  /\ payload_Np (snd SampleFiles.plain) = N.of_nat 2
  /\ (N.of_nat 2 < 2 ^ 64)%N
  /\ sbf_get "SFCount" (fst SampleFiles.plain) = Ok (PyStr.str (Z.of_nat 2))
  /\ payload_Ns (snd SampleFiles.plain) = N.of_nat 2
  /\ (N.of_nat 2 < 2 ^ 16)%N
  /\ exists s g, sbf_get "GlobalShift" (fst SampleFiles.plain) = Ok s
                 /\ Sample.eval s = Some g.
Proof.
  apply (write_sbf_postcondition Sample.eval Sample.points (Some Sample.fields)
           (Some Sample.header) false None
           (fst SampleFiles.plain) (snd SampleFiles.plain)).
  vm_compute. reflexivity.
Defined.

(** X16. Whenever a call with normals returns, there is exactly one scalar
    field, which is spread over the four columns stored after the
    coordinates: the header still counts one field under [SFCount], it
    holds the count 4 under the key [SFcount] and the names of the normals
    under the keys [SF5], [SF6] and [SF7], and the preamble declares four
    fields. *)
Theorem write_sbf_normals_one_field (py_eval : string -> option (list f64))
  (pc : matrix f64) (sf : option (matrix f64)) (config : option ConfigParser)
  (add_index : bool) (normals : matrix f64)
  (h : ConfigParser) (sbf_data : list byte) :
  write_sbf py_eval pc sf config add_index (Some normals) = Ok (h, sbf_data) ->
  (exists m, sf = Some m /\ ncols m = 1)
  /\ sbf_get "SFCount" h = Ok "1"
  /\ sbf_get "SFcount" h = Ok "4"
  /\ sbf_get "SF5" h = Ok "Nx"
  /\ sbf_get "SF6" h = Ok "Ny"
  /\ sbf_get "SF7" h = Ok "Nz"
  /\ payload_Ns sbf_data = 4%N.
Proof.
  intros H. apply write_sbf_Ok in H as (-> & Hh & Hp).
  apply write_sbf_header_Ok in Hh as (_ & config0 & sec & _ & Hsec & Hh).
  apply write_sbf_payload_Ok in Hp as (_ & _ & _ & _ & ENs & _ & Hm).
  destruct Hm as (m & -> & Hm); [unfold stored_count; lia|].
  assert (ncols m = 1) as Hone
    by (unfold stored_count in Hm; cbn [sf_count] in Hm; lia).
  assert (od_get "SBF" h
          = Some (written_section pc (Some m) false (Some normals) sec)) as Hsec'
    by (rewrite Hh; apply od_get_set_same).
  rewrite !(sbf_get_eq _ _ _ Hsec'), ENs.
  unfold written_section, stored_count. cbn [sf_count]. rewrite Hone. cbv zeta.
  rewrite !od_get_set.
  split; [eauto|]. repeat split.
Qed.

Lemma write_sbf_normals_one_field_sample :
  (exists m, Some Sample.field = Some m /\ ncols m = 1)
  /\ sbf_get "SFCount" (fst SampleFiles.with_normals) = Ok "1"
  /\ sbf_get "SFcount" (fst SampleFiles.with_normals) = Ok "4"
  /\ sbf_get "SF5" (fst SampleFiles.with_normals) = Ok "Nx"
  /\ sbf_get "SF6" (fst SampleFiles.with_normals) = Ok "Ny"
  /\ sbf_get "SF7" (fst SampleFiles.with_normals) = Ok "Nz"
  /\ payload_Ns (snd SampleFiles.with_normals) = 4%N.
Proof.
  apply (write_sbf_normals_one_field Sample.eval Sample.points (Some Sample.field)
           (Some Sample.header1) false Sample.points
           (fst SampleFiles.with_normals) (snd SampleFiles.with_normals)).
  vm_compute. reflexivity.
Defined.

Lemma broadcast_row_bad {A} (c : nat) (v : list A) :
  length v <> c -> length v <> 1 -> broadcast_row c v = Raise ValueError.
Proof.
  intros Hc H1. unfold broadcast_row. apply Nat.eqb_neq in Hc. rewrite Hc.
  destruct v as [|x [|y v]]; try reflexivity. now elim H1.
Qed.

(** X17. Writing needs what reading does without: with a header that has no
    global shift (or no section at all) the call raises the KeyError of the
    lookup, with a global shift that does not evaluate it raises the
    exception of the evaluation, and with one that has neither three numbers
    nor one it raises the ValueError of the subtraction, whatever the other
    arguments. *)
Theorem write_sbf_needs_global_shift (py_eval : string -> option (list f64))
  (pc : matrix f64) (sf : option (matrix f64)) (config : ConfigParser)
  (add_index : bool) (normals : option (matrix f64)) (e : exn) :
  sbf_get "GlobalShift" config = Raise e
  \/ (exists s, sbf_get "GlobalShift" config = Ok s /\ py_eval s = None
                /\ e = EvalError)
  \/ (exists s g, sbf_get "GlobalShift" config = Ok s /\ py_eval s = Some g
                  /\ ncols pc = 3 /\ length g <> 3 /\ length g <> 1
                  /\ e = ValueError) ->
  write_sbf py_eval pc sf (Some config) add_index normals = Raise e.
Proof.
  intros H. rewrite write_sbf_split.
  destruct (od_get "SBF" config) as [sec|] eqn:Hsec.
  - rewrite (write_sbf_header_eq _ _ _ _ _ _ Hsec). cbn [bind].
    rewrite (sbf_get_eq _ _ _ Hsec) in H.
    unfold write_sbf_payload.
    rewrite (sbf_get_eq _ _ _ (od_get_set_same _ _ _)).
    rewrite written_section_other by (discriminate || reflexivity).
    destruct H as [H|[(s & H & Hs & ->)|(s & g & H & Hs & Hc & H3 & H1 & ->)]].
    + now rewrite H.
    + rewrite H. cbn [bind]. now rewrite Hs.
    + rewrite H. cbn [bind]. rewrite Hs. cbn [of_option bind].
      unfold sub_row. rewrite Hc. cbn [Nat.eqb andb].
      now rewrite broadcast_row_bad.
  - rewrite write_sbf_header_no_section by assumption. cbn [bind].
    unfold sbf_get, sbf_section in H. rewrite Hsec in H. cbn [of_option bind] in H.
    destruct H as [H|[(s & H & _)|(s & g & H & _)]]; congruence.
Qed.

Lemma write_sbf_needs_global_shift_sample :
  write_sbf Sample.eval Sample.points (Some Sample.fields)
    (Some Sample.header_unchecked) false None = Raise KeyError.
Proof.
  apply (write_sbf_needs_global_shift Sample.eval Sample.points
           (Some Sample.fields) Sample.header_unchecked false None KeyError).
  left. reflexivity.
Defined.

(** ** Plain writing *)

(** The payload of a plain call holds the numbers its preamble declares. *)
Lemma written_payload_wf (pc : matrix f64) (sf : option (matrix f64))
  (g : list f64) (x y z : f64) :
  wf_matrix pc -> ncols pc = 3 ->
  wf_scalar_fields (nrows pc) sf ->
  length g = 3 ->
  (N.of_nat (nrows pc) < 2 ^ 64)%N ->
  (N.of_nat (sf_count sf) < 2 ^ 16)%N ->
  wf_payload
    (preamble (N.of_nat (nrows pc)) (N.of_nat (sf_count sf)) x y z
     ++ flat_map pack_f
          (concat (zip_with (@app f32) (stored_coordinates pc g)
                     (stored_fields (nrows pc) sf)))) = true.
Proof.
  intros Hpc Hc Hsf Hg HN HS.
  destruct (stored_coordinates_shape pc g Hpc Hc Hg) as [Hlen Hthree].
  destruct (stored_fields_shape _ _ Hsf) as [Hflen Hfs].
  destruct (rows_of_written (sf_count sf) (stored_coordinates pc g)
              (stored_fields (nrows pc) sf) (eq_trans Hflen (eq_sym Hlen)) Hthree Hfs)
    as (Hrl & Hru & _).
  now destruct (payload_rows_written (nrows pc) (sf_count sf) x y z _ HN HS
                  (eq_trans Hrl Hlen) Hru) as (Hwf & _).
Qed.



(** ** The header that is generated *)

Lemma in_dict_SF (S : nat) (key value : string) :
  In (key, value) (dict_SF S) <->
  exists k, (1 <= k <= Z.of_nat S)%Z /\ key = SF k /\ value = PyStr.str k.
Proof.
  unfold dict_SF. rewrite in_map_iff. split.
  - intros (k & [= <- <-] & Hk). apply in_py_range in Hk.
    exists (k + 1)%Z. repeat split; lia.
  - intros (k & Hk & -> & ->). exists (k - 1)%Z.
    replace (k - 1 + 1)%Z with k by lia. split; [reflexivity|].
    apply in_py_range. lia.
Qed.

Lemma in_keys_dict_SF (S : nat) (key : string) :
  In key (od_keys (dict_SF S)) <-> exists k, (1 <= k <= Z.of_nat S)%Z /\ key = SF k.
Proof.
  unfold od_keys. rewrite in_map_iff. split.
  - intros ([key' value] & <- & H). apply in_dict_SF in H as (k & Hk & -> & _).
    eauto.
  - intros (k & Hk & ->). exists (SF k, PyStr.str k). split; [reflexivity|].
    apply in_dict_SF. eauto.
Qed.

Lemma NoDup_keys_dict_SF (S : nat) : NoDup (od_keys (dict_SF S)).
Proof.
  unfold od_keys, dict_SF. rewrite map_map. cbn [fst].
  apply NoDup_map_NoDup_ForallPairs; [|apply NoDup_py_range_from].
  intros k k' Hk Hk' E. apply in_py_range in Hk, Hk'.
  apply SF_inj in E; lia.
Qed.

Section Generated.
Variables Points S : nat.

Local Abbreviation gsec :=
  ([("Points", PyStr.str (Z.of_nat Points));
    ("SFCount", PyStr.str (Z.of_nat S));
    ("GlobalShift", "0., 0., 0.")] ++ dict_SF S).

Lemma in_keys_generated (key : string) :
  In key (od_keys gsec) <->
  key = "Points" \/ key = "SFCount" \/ key = "GlobalShift"
  \/ exists k, (1 <= k <= Z.of_nat S)%Z /\ key = SF k.
Proof.
  rewrite od_keys_app, in_app_iff, in_keys_dict_SF. cbn [od_keys map fst In].
  intuition auto.
Qed.

Lemma NoDup_keys_generated : NoDup (od_keys gsec).
Proof.
  assert (forall key, is_sf_key key = false -> ~ In key (od_keys (dict_SF S))) as Hout.
  { intros key Hk H. apply in_keys_dict_SF in H as (k & Hr & ->).
    rewrite is_sf_key_SF in Hk by lia. discriminate. }
  rewrite od_keys_app. cbn [od_keys map fst app].
  repeat constructor; cbn [In];
    try (intros [H|H]; [discriminate|revert H]);
    try (intros [H|H]; [discriminate|revert H]);
    try apply Hout; try reflexivity.
  apply NoDup_keys_dict_SF.
Qed.

Lemma generated_get_SF (k : Z) :
  (1 <= k <= Z.of_nat S)%Z -> od_get (SF k) gsec = Some (PyStr.str k).
Proof.
  intros Hk. apply NoDup_keys_get; [apply NoDup_keys_generated|].
  apply in_or_app. right. apply in_dict_SF. eauto.
Qed.

Lemma WfHeader_generated : WfHeader S gsec.
Proof.
  apply WfHeader_of_get.
  - reflexivity.
  - apply NoDup_keys_generated.
  - intros key i Hin Hi. apply od_get_mem, in_keys_generated in Hin.
    destruct Hin as [->|[->|[->|(k & Hk & ->)]]]; try discriminate.
    rewrite sf_key_index_SF in Hi by lia. injection Hi as <-.
    split; [f_equal|]; lia.
  - intros k Hk. now rewrite generated_get_SF.
  - intros k k' v Hk Hk'. rewrite !generated_get_SF by assumption.
    intros [= <-] [= E]. symmetry. apply str_inj in E; lia.
Qed.

End Generated.



(** * Failures of the bookkeeping *)




